(** * CLM-Estimator: the graph editor's core logic

    A shallow embedding of [src/components/GraphEditor.tsx]: the node and
    edge records, the estimate tables ([buildSummary], the total of
    [SummaryTable]), node creation ([createChildNode], [addNode]), the edge
    comment dialog, the save/load codec ([handleSave], [handleFileChange])
    and the bounding box of [exportImage].

    Conventions.
    - A JS [number] that the editor stores (a coordinate, a rate, a counter)
      is an integer [Z]; the positions are snapped to the grid and the rates
      are typed into a numeric input.  Where the code can produce one of the
      special values ([Infinity] as the seed of a [reduce], [NaN] from
      arithmetic on [undefined]) the type [number] below is used.
    - An optional property ([type?: string], [width?: number | null]) is an
      [option]; [None] is the absent property.
    - [Record<string, number>] is a [gmap string Z]; reading a missing key
      gives [None], which is the [undefined] of JS.
    - React state is one record, [EditorState]; an event handler is a
      function on it that may stop with an exception ([Handler]). *)

From stdpp Require Import base option list strings gmap pretty.
From Stdlib Require Import ZArith Lia.

Local Open Scope Z_scope.
Local Open Scope string_scope.
Local Open Scope list_scope.

(** ** Types *)

Inductive Difficulty := simple | medium | complex.
Inductive YesNo := yes | no.
Inductive CreateType := new | adapt.

#[global] Instance Difficulty_eq_dec : EqDecision Difficulty.
Proof. solve_decision. Defined.
#[global] Instance YesNo_eq_dec : EqDecision YesNo.
Proof. solve_decision. Defined.
#[global] Instance CreateType_eq_dec : EqDecision CreateType.
Proof. solve_decision. Defined.

(** The string a difficulty stands for, as it is spliced into a template
    literal. *)
Definition Difficulty_str (d : Difficulty) : string :=
  match d with
  | simple => "simple"
  | medium => "medium"
  | complex => "complex"
  end.

Record NodeData := {
  label : string;
  comment : string;
  image : option string;
  uploading : YesNo;
  designType : CreateType;
  designDifficulty : Difficulty;
  codingType : CreateType;
  codingDifficulty : Difficulty;
}.

Record XYPosition := { x : Z; y : Z }.

(** [Node<NodeData>] of the rendering surface, with the properties the
    editor reads or writes. *)
Record Node := {
  node_id : string;
  node_type : option string;
  node_position : XYPosition;
  node_data : NodeData;
  node_width : option Z;
  node_height : option Z;
}.

Record EdgeData := { edge_comment : option string }.

(** [Edge] of the rendering surface. *)
Record Edge := {
  edge_id : string;
  edge_source : string;
  edge_target : string;
  edge_type : option string;
  edge_data : option EdgeData;
  edge_label : option string;
}.

(** [PersistEdge]. *)
Record PersistEdge := {
  pe_id : string;
  pe_source : string;
  pe_target : string;
  pe_type : option string;
  pe_data : option EdgeData;
  pe_label : option string;
}.

(** An element of [PersistFile.nodes].  The interface declares [id],
    [position] and [data]; a file may carry more, and the object spread of
    the loader copies whatever is there, so the optional properties of a
    [Node] are part of the record. *)
Record PersistNode := {
  pn_id : string;
  pn_position : XYPosition;
  pn_data : NodeData;
  pn_type : option string;
  pn_width : option Z;
  pn_height : option Z;
}.

(** [PersistFile], as the value [JSON.parse] hands to the loader.  The cast
    [as PersistFile] checks nothing, so each of the three properties can be
    missing ([None]: no array to call [map] on, no table to pass [||]); a
    parsed value that is not an object at all has none of them.  The
    entries of the arrays are taken to be records of the declared shape. *)
Record PersistFile := {
  pf_nodes : option (list PersistNode);
  pf_edges : option (list PersistEdge);
  pf_rates : option (gmap string Z);
}.

(** ** Constants *)

Definition WORK_TYPES : list string :=
  [ "Design-simple"; "Design-medium"; "Design-complex";
    "Coding-simple"; "Coding-medium"; "Coding-complex" ].

Definition DEFAULT_RATES : gmap string Z :=
  <["Design-simple" := 100]> (
  <["Design-medium" := 200]> (
  <["Design-complex" := 300]> (
  <["Coding-simple" := 150]> (
  <["Coding-medium" := 300]> (
  <["Coding-complex" := 450]> ∅))))).

(** ** Helpers *)

(** [createChildNode(parent, id, offsetY = 150)].  [position] is a required
    property of [Node], so the fallbacks of the destructuring
    ([?? { x: 0, y: 0 }], [x = 0], [y = 0]) never fire. *)
Definition createChildNode (parent : Node) (id : string) (offsetY : Z) : Node :=
  let px := x (node_position parent) in
  let py := y (node_position parent) in
  {| node_id := id;
     node_type := Some "graphNode";
     node_position := {| x := px; y := py + offsetY |};
     node_data :=
       {| label := "Node " +:+ id;
          comment := "";
          image := None;
          uploading := no;
          designType := new;
          designDifficulty := simple;
          codingType := new;
          codingDifficulty := simple |};
     node_width := None;
     node_height := None |}.

Definition default_offsetY : Z := 150.

(** ** JS numbers with their special values *)

Inductive number := NaN | NegInfinity | Num (z : Z) | Infinity.

Definition Math_min (a b : number) : number :=
  match a, b with
  | NaN, _ | _, NaN => NaN
  | NegInfinity, _ | _, NegInfinity => NegInfinity
  | Infinity, c | c, Infinity => c
  | Num p, Num q => Num (Z.min p q)
  end.

Definition Math_max (a b : number) : number :=
  match a, b with
  | NaN, _ | _, NaN => NaN
  | Infinity, _ | _, Infinity => Infinity
  | NegInfinity, c | c, NegInfinity => c
  | Num p, Num q => Num (Z.max p q)
  end.

Definition num_add (a b : number) : number :=
  match a, b with
  | NaN, _ | _, NaN => NaN
  | Infinity, NegInfinity | NegInfinity, Infinity => NaN
  | Infinity, _ | _, Infinity => Infinity
  | NegInfinity, _ | _, NegInfinity => NegInfinity
  | Num p, Num q => Num (p + q)
  end.

Definition num_neg (a : number) : number :=
  match a with
  | NaN => NaN
  | NegInfinity => Infinity
  | Num p => Num (- p)
  | Infinity => NegInfinity
  end.

Definition num_sub (a b : number) : number := num_add a (num_neg b).

(** [q * r] where [r] was read from a record and may be [undefined]: the
    product with [undefined] is [NaN]. *)
Definition num_mul_opt (q : Z) (r : option Z) : number :=
  match r with
  | Some v => Num (q * v)
  | None => NaN
  end.

(** ** Estimate helpers *)

Record SummaryRow := {
  work : string;
  rate : option Z;
  qty : Z;
  sum : number;
}.

(** [counts[k]] for a key the table holds. *)
Definition count_at (counts : gmap string Z) (k : string) : Z :=
  default 0 (counts !! k).

(** [counts[k] += 1]. *)
Definition bump (k : string) (counts : gmap string Z) : gmap string Z :=
  <[k := count_at counts k + 1]> counts.

(** [!filter || t === filter]. *)
Definition passes (filter : option CreateType) (t : CreateType) : bool :=
  match filter with
  | None => true
  | Some f => bool_decide (t = f)
  end.

(** The body of the [forEach] of [buildSummary]. *)
Definition countNode (filter : option CreateType)
    (counts : gmap string Z) (n : Node) : gmap string Z :=
  let data := node_data n in
  let counts :=
    if passes filter (designType data)
    then bump ("Design-" +:+ Difficulty_str (designDifficulty data)) counts
    else counts in
  if passes filter (codingType data)
  then bump ("Coding-" +:+ Difficulty_str (codingDifficulty data)) counts
  else counts.

(** [Object.fromEntries(WORK_TYPES.map((k) => [k, 0]))]. *)
Definition zero_counts : gmap string Z :=
  list_to_map ((λ k, (k, 0)) <$> WORK_TYPES).

Definition tally (filter : option CreateType) (nodes : list Node) : gmap string Z :=
  foldl (countNode filter) zero_counts nodes.

Definition buildSummary (nodes : list Node) (rates : gmap string Z)
    (filter : option CreateType) : list SummaryRow :=
  let counts := tally filter nodes in
  (λ wt, {| work := wt;
            rate := rates !! wt;
            qty := count_at counts wt;
            sum := num_mul_opt (count_at counts wt) (rates !! wt) |})
    <$> WORK_TYPES.

(** [rows.reduce((a, r) => a + r.sum, 0)] of [SummaryTable]. *)
Definition total (rows : list SummaryRow) : number :=
  foldl (λ a r, num_add a (sum r)) (Num 0) rows.

(** The quantity a table reports for a work type: the [qty] of the first
    row whose [work] is that key. *)
Definition qty_of (rows : list SummaryRow) (wt : string) : option Z :=
  (λ p : nat * SummaryRow, qty p.2) <$> list_find (λ r, work r = wt) rows.

(** ** Editor state and event handlers *)

(** The pieces of React state and the one ref ([idCounter]) the handlers
    below read or write. *)
Record EditorState := {
  nodes : list Node;
  edges : list Edge;
  rates : gmap string Z;
  idCounter : Z;
  selectedNodeId : option string;
  selectedEdge : option string;
  edgeComment : string;
}.

Definition with_nodes (f : list Node → list Node) (st : EditorState) : EditorState :=
  {| nodes := f (nodes st); edges := edges st; rates := rates st;
     idCounter := idCounter st; selectedNodeId := selectedNodeId st;
     selectedEdge := selectedEdge st; edgeComment := edgeComment st |}.

Definition with_edges (f : list Edge → list Edge) (st : EditorState) : EditorState :=
  {| nodes := nodes st; edges := f (edges st); rates := rates st;
     idCounter := idCounter st; selectedNodeId := selectedNodeId st;
     selectedEdge := selectedEdge st; edgeComment := edgeComment st |}.

Definition with_rates (f : gmap string Z → gmap string Z) (st : EditorState) : EditorState :=
  {| nodes := nodes st; edges := edges st; rates := f (rates st);
     idCounter := idCounter st; selectedNodeId := selectedNodeId st;
     selectedEdge := selectedEdge st; edgeComment := edgeComment st |}.

Definition with_idCounter (c : Z) (st : EditorState) : EditorState :=
  {| nodes := nodes st; edges := edges st; rates := rates st;
     idCounter := c; selectedNodeId := selectedNodeId st;
     selectedEdge := selectedEdge st; edgeComment := edgeComment st |}.

Definition with_selectedNodeId (s : option string) (st : EditorState) : EditorState :=
  {| nodes := nodes st; edges := edges st; rates := rates st;
     idCounter := idCounter st; selectedNodeId := s;
     selectedEdge := selectedEdge st; edgeComment := edgeComment st |}.

Definition with_selectedEdge (s : option string) (st : EditorState) : EditorState :=
  {| nodes := nodes st; edges := edges st; rates := rates st;
     idCounter := idCounter st; selectedNodeId := selectedNodeId st;
     selectedEdge := s; edgeComment := edgeComment st |}.

Definition with_edgeComment (s : string) (st : EditorState) : EditorState :=
  {| nodes := nodes st; edges := edges st; rates := rates st;
     idCounter := idCounter st; selectedNodeId := selectedNodeId st;
     selectedEdge := selectedEdge st; edgeComment := s |}.

(** The graph state proper: what a document is meant to carry. *)
Definition graph (st : EditorState) : list Node * list Edge * gmap string Z :=
  (nodes st, edges st, rates st).

(** A handler runs on the state and either finishes with a value or stops
    at an exception ([None]); what it wrote before the exception stays
    written. *)
Definition Handler (A : Type) : Type := EditorState → EditorState * option A.

Definition ret {A} (a : A) : Handler A := λ st, (st, Some a).

Definition bind {A B} (h : Handler A) (k : A → Handler B) : Handler B :=
  λ st, match h st with
        | (st', Some a) => k a st'
        | (st', None) => (st', None)
        end.

Definition throw {A} : Handler A := λ st, (st, None).

(** [try { h } catch (err) { console.error(...) }]: the exception is
    swallowed, the state is the one reached when it was thrown. *)
Definition try_catch (h : Handler unit) : Handler unit :=
  λ st, ((h st).1, Some tt).

Definition reads {A} (f : EditorState → A) : Handler A := λ st, (st, Some (f st)).
Definition modify (f : EditorState → EditorState) : Handler unit :=
  λ st, (f st, Some tt).

(** A step that needs a value and throws when there is none: a property
    read or a method call on [undefined] ([TypeError]), the parse of text
    that is not JSON ([SyntaxError]). *)
Definition deref {A} (o : option A) : Handler A :=
  match o with
  | Some a => ret a
  | None => throw
  end.

Declare Scope handler_scope.
Delimit Scope handler_scope with handler.
Notation "v <- h ;; k" := (bind h (λ v, k))
  (at level 100, h at next level, right associativity) : handler_scope.
Notation "h ;; k" := (bind h (λ _, k))
  (at level 100, right associativity) : handler_scope.
Local Open Scope handler_scope.

Definition setNodes (f : list Node → list Node) : Handler unit := modify (with_nodes f).
Definition setEdges (f : list Edge → list Edge) : Handler unit := modify (with_edges f).
Definition setRates (f : gmap string Z → gmap string Z) : Handler unit := modify (with_rates f).
Definition setSelectedNodeId (s : option string) : Handler unit := modify (with_selectedNodeId s).
Definition setSelectedEdge (s : option string) : Handler unit := modify (with_selectedEdge s).
Definition setEdgeComment (s : string) : Handler unit := modify (with_edgeComment s).

(** The state [GraphEditor] starts from. *)
Definition rootStub : Node :=
  {| node_id := "root"; node_type := None;
     node_position := {| x := 250; y := 25 |};
     node_data :=
       {| label := ""; comment := ""; image := None; uploading := no;
          designType := new; designDifficulty := simple;
          codingType := new; codingDifficulty := simple |};
     node_width := None; node_height := None |}.

Definition initialState : EditorState :=
  {| nodes := [createChildNode rootStub "1" 0];
     edges := [];
     rates := DEFAULT_RATES;
     idCounter := 2;
     selectedNodeId := None;
     selectedEdge := None;
     edgeComment := "" |}.

(** [nodes.find((n) => n.id === selectedNodeId) ?? null]. *)
Definition selectedNode (st : EditorState) : option Node :=
  match selectedNodeId st with
  | Some i => List.find (λ n, bool_decide (node_id n = i)) (nodes st)
  | None => None
  end.

Definition onNodeClick (node : Node) : Handler unit :=
  setSelectedNodeId (Some (node_id node)).

(** [addNode].  The counter is read and advanced before the parent is
    touched; with no node selected and an empty list the parent is
    [undefined] and [createChildNode] throws on [parent.position]. *)
Definition addNode : Handler unit :=
  parent <- reads (λ st, match selectedNode st with
                         | Some n => Some n
                         | None => head (nodes st)
                         end) ;;
  c <- reads idCounter ;;
  modify (with_idCounter (c + 1)) ;;
  let newId := pretty c in
  p <- deref parent ;;
  let newNode := createChildNode p newId default_offsetY in
  setNodes (λ nds, nds ++ [newNode]) ;;
  setEdges (λ eds, eds ++ [
    {| edge_id := "e" +:+ node_id p +:+ "-" +:+ newId;
       edge_source := node_id p;
       edge_target := newId;
       edge_type := Some "smoothstep";
       edge_data := None;
       edge_label := None |} ]).

(** [onEdgeDoubleClick]: [edge.data?.comment || ""]. *)
Definition onEdgeDoubleClick (edge : Edge) : Handler unit :=
  setSelectedEdge (Some (edge_id edge)) ;;
  setEdgeComment (default "" (edge_data edge ≫= edge_comment)).

(** The [Save] button of the edge comment dialog. *)
Definition saveEdgeComment : Handler unit :=
  sel <- reads selectedEdge ;;
  text <- reads edgeComment ;;
  setEdges (fmap (λ e,
    if bool_decide (Some (edge_id e) = sel)
    then {| edge_id := edge_id e; edge_source := edge_source e;
            edge_target := edge_target e; edge_type := edge_type e;
            edge_data := Some {| edge_comment := Some text |};
            edge_label := Some text |}
    else e)) ;;
  setSelectedEdge None.

Definition handleRateChange (work : string) (val : Z) : Handler unit :=
  setRates (λ prev, <[work := val]> prev).

(** ** Save / Load *)

(** The payload [handleSave] hands to [downloadJSON], as [JSON.stringify]
    writes it: a property whose value is [undefined] is left out. *)
Definition handleSave (st : EditorState) : PersistFile :=
  {| pf_nodes := Some ((λ n,
         {| pn_id := node_id n; pn_position := node_position n;
            pn_data := node_data n;
            pn_type := None; pn_width := None; pn_height := None |})
       <$> nodes st);
     pf_edges := Some ((λ e,
         {| pe_id := edge_id e; pe_source := edge_source e;
            pe_target := edge_target e; pe_type := edge_type e;
            pe_data := None; pe_label := None |})
       <$> edges st);
     pf_rates := Some (rates st) |}.

(** [{ type: "graphNode", ...n }]: the spread comes last, so a [type] the
    record carries itself replaces the marker. *)
Definition enrichNode (n : PersistNode) : Node :=
  {| node_id := pn_id n;
     node_type := match pn_type n with
                  | Some t => Some t
                  | None => Some "graphNode"
                  end;
     node_position := pn_position n;
     node_data := pn_data n;
     node_width := pn_width n;
     node_height := pn_height n |}.

(** [{ ...e, type: e.type ?? "smoothstep" }]. *)
Definition enrichEdge (e : PersistEdge) : Edge :=
  {| edge_id := pe_id e;
     edge_source := pe_source e;
     edge_target := pe_target e;
     edge_type := Some (default "smoothstep" (pe_type e));
     edge_data := pe_data e;
     edge_label := pe_label e |}.

(** The statements of the [try] block of [reader.onload] after the parse. *)
Definition loadDocument (data : PersistFile) : Handler unit :=
  ns <- deref (pf_nodes data) ;;
  let enrichedNodes := enrichNode <$> ns in
  setNodes (λ _, enrichedNodes) ;;
  es <- deref (pf_edges data) ;;
  let enrichedEdges := enrichEdge <$> es in
  setEdges (λ _, enrichedEdges) ;;
  setRates (λ _, default DEFAULT_RATES (pf_rates data)) ;;
  ns' <- deref (pf_nodes data) ;;
  modify (with_idCounter (Z.of_nat (length ns') + 1)).

(** Loading a document that is already parsed: the [try] block with its
    [catch]. *)
Definition deserialize (data : PersistFile) (st : EditorState) : EditorState :=
  (try_catch (loadDocument data) st).1.

Section Loader.
(** [JSON.parse] read at type [PersistFile]; [None] is the [SyntaxError]
    it throws on text that is not JSON. *)
Variable JSON_parse : string → option PersistFile.

(** [reader.onload] of [handleFileChange], on the text of the file. *)
Definition reader_onload (text : string) : Handler unit :=
  try_catch (
    data <- deref (JSON_parse text) ;;
    loadDocument data).
End Loader.

(** ** Export geometry *)

Record Bounds := { minX : number; minY : number; maxX : number; maxY : number }.

(** The reducer of [exportImage]. *)
Definition growBounds (acc : Bounds) (n : Node) : Bounds :=
  let w := default 250 (node_width n) in
  let h := default 150 (node_height n) in
  {| minX := Math_min (minX acc) (Num (x (node_position n)));
     minY := Math_min (minY acc) (Num (y (node_position n)));
     maxX := Math_max (maxX acc) (Num (x (node_position n) + w));
     maxY := Math_max (maxY acc) (Num (y (node_position n) + h)) |}.

Definition nodeBounds (nodes : list Node) : Bounds :=
  foldl growBounds
    {| minX := Infinity; minY := Infinity;
       maxX := NegInfinity; maxY := NegInfinity |}
    nodes.

Definition PAD : Z := 64.

Definition fullW (nodes : list Node) : number :=
  let b := nodeBounds nodes in
  num_add (num_sub (maxX b) (minX b)) (Num (PAD * 2)).

Definition fullH (nodes : list Node) : number :=
  let b := nodeBounds nodes in
  num_add (num_sub (maxY b) (minY b)) (Num (PAD * 2)).

(** The translation applied to the viewport layer. *)
Definition viewportShift (nodes : list Node) : number * number :=
  let b := nodeBounds nodes in
  (num_add (num_neg (minX b)) (Num PAD), num_add (num_neg (minY b)) (Num PAD)).

(** ** Node dialog and pasted images *)

(** The editor state with the two pieces of React state of the node
    dialog. *)
Record DialogState := {
  editor : EditorState;
  isDialogOpen : bool;
  formState : NodeData;
}.

Definition tmpStub : Node :=
  {| node_id := "tmp"; node_type := None;
     node_position := {| x := 0; y := 0 |};
     node_data := node_data rootStub;
     node_width := None; node_height := None |}.

Definition initialDialogState : DialogState :=
  {| editor := initialState;
     isDialogOpen := false;
     formState := node_data (createChildNode tmpStub "tmp" default_offsetY) |}.

(** A handler of the editor state run inside the larger state; what it
    wrote stays, whether it finished or threw. *)
Definition onEditor (h : Handler unit) (ui : DialogState) : DialogState :=
  {| editor := (h (editor ui)).1;
     isDialogOpen := isDialogOpen ui;
     formState := formState ui |}.

Definition setFormState (f : NodeData → NodeData) (ui : DialogState) : DialogState :=
  {| editor := editor ui; isDialogOpen := isDialogOpen ui;
     formState := f (formState ui) |}.

Definition setDialogOpen (b : bool) (ui : DialogState) : DialogState :=
  {| editor := editor ui; isDialogOpen := b; formState := formState ui |}.

(** [useEffect(() => { if (selectedNode) setFormState({ ...selectedNode.data }); },
    [selectedNode])]: the step React runs once the selected node changed. *)
Definition syncFormState (ui : DialogState) : DialogState :=
  match selectedNode (editor ui) with
  | Some n => setFormState (λ _, node_data n) ui
  | None => ui
  end.

Definition onNodeDoubleClick (node : Node) (ui : DialogState) : DialogState :=
  setDialogOpen true (onEditor (setSelectedNodeId (Some (node_id node))) ui).

(** [{ ...n, data: d }]. *)
Definition with_data (d : NodeData) (n : Node) : Node :=
  {| node_id := node_id n; node_type := node_type n;
     node_position := node_position n; node_data := d;
     node_width := node_width n; node_height := node_height n |}.

(** [saveNode], the [Save] button of the node dialog. *)
Definition saveNode (ui : DialogState) : DialogState :=
  match selectedNode (editor ui) with
  | None => ui
  | Some sel =>
      setDialogOpen false
        (onEditor (setNodes (fmap (λ n,
           if bool_decide (node_id n = node_id sel)
           then with_data (formState ui) n
           else n))) ui)
  end.

(** [{ ...s, image: img }]. *)
Definition with_image (img : option string) (d : NodeData) : NodeData :=
  {| label := label d; comment := comment d; image := img;
     uploading := uploading d;
     designType := designType d; designDifficulty := designDifficulty d;
     codingType := codingType d; codingDifficulty := codingDifficulty d |}.

(** [r.onload] of [handleImageUpload]. *)
Definition imageUploaded (img : string) (ui : DialogState) : DialogState :=
  setFormState (with_image (Some img)) ui.

(** [reader.onload] of the paste handler, on a state that did not change
    between the paste and the end of the read.  [else if (selectedNodeId)]
    is a truthiness test: the empty string counts as no selection. *)
Definition imagePasted (img : string) (ui : DialogState) : DialogState :=
  if isDialogOpen ui
  then setFormState (with_image (Some img)) ui
  else match selectedNodeId (editor ui) with
       | Some i =>
           if bool_decide (i = "")
           then ui
           else onEditor (setNodes (fmap (λ n,
                  if bool_decide (node_id n = i)
                  then with_data (with_image (Some img) (node_data n)) n
                  else n))) ui
       | None => ui
       end.

(** The paste read to its end, and the render that follows it.  The effect
    on [selectedNode] runs when the selected node is a new object: that is
    when [setNodes] ran and replaced a node with the selected id.  With the
    dialog open, with no usable selection, or with a selection that names
    no node, the selected node is the object it was and the effect does
    not run. *)
Definition imagePastedRendered (img : string) (ui : DialogState) : DialogState :=
  let ui' := imagePasted img ui in
  if isDialogOpen ui
  then ui'
  else match selectedNode (editor ui) with
       | Some n => if bool_decide (node_id n = "") then ui' else syncFormState ui'
       | None => ui'
       end.

(** ** Tabs *)

(** [useContext(TabsContext)]: the current value inside [<Tabs>], [None]
    outside of it. *)
Definition TabsContext : Type := option string.

(** [Tabs] mounts with [useState(defaultValue)]. *)
Definition Tabs (defaultValue : string) : TabsContext := Some defaultValue.

(** [isActive] of [TabsTrigger] and of [TabsContent]; outside [<Tabs>] the
    component throws ([None]). *)
Definition isActive (ctx : TabsContext) (value : string) : option bool :=
  match ctx with
  | None => None
  | Some v => Some (bool_decide (v = value))
  end.

(** [onClick] of a [TabsTrigger]: [ctx.setValue(triggerValue)]. *)
Definition TabsTrigger_onClick (triggerValue : string) (ctx : TabsContext) : TabsContext :=
  match ctx with
  | None => None
  | Some _ => Some triggerValue
  end.

(** * Vocabulary of the properties *)

(** What one node adds to the bucket [j] under the filter [f]. *)
Definition hits (f : option CreateType) (n : Node) (j : string) : Z :=
  (if passes f (designType (node_data n))
   then if decide ("Design-" +:+ Difficulty_str (designDifficulty (node_data n)) = j)
        then 1 else 0
   else 0)
  + (if passes f (codingType (node_data n))
     then if decide ("Coding-" +:+ Difficulty_str (codingDifficulty (node_data n)) = j)
          then 1 else 0
     else 0).

(** [n] with its [uploading] flag set to [u]. *)
Definition with_uploading (u : YesNo) (n : Node) : Node :=
  {| node_id := node_id n; node_type := node_type n;
     node_position := node_position n;
     node_data :=
       {| label := label (node_data n); comment := comment (node_data n);
          image := image (node_data n);
          uploading := u;
          designType := designType (node_data n);
          designDifficulty := designDifficulty (node_data n);
          codingType := codingType (node_data n);
          codingDifficulty := codingDifficulty (node_data n) |};
     node_width := node_width n; node_height := node_height n |}.

(** Two nodes that differ in nothing but the [uploading] flag. *)
Definition same_but_uploading (a b : Node) : Prop :=
  with_uploading no a = with_uploading no b.

(** The parent [addNode] picks: the selected node, else the first one. *)
Definition addNode_parent (st : EditorState) : option Node :=
  match selectedNode st with
  | Some n => Some n
  | None => head (nodes st)
  end.

(** The allocation invariant: every numeric id in use (an id that is the
    decimal notation [pretty k] of a number [k]) lies below the counter. *)
Definition ids_below_counter (st : EditorState) : Prop :=
  ∀ k : Z, pretty k ∈ node_id <$> nodes st → k < idCounter st.

(** The side conditions of the round trip. *)
Definition fully_specified (r : gmap string Z) : Prop :=
  Forall (λ wt, is_Some (r !! wt)) WORK_TYPES.

Definition no_dangling_edges (st : EditorState) : Prop :=
  Forall (λ e, edge_source e ∈ node_id <$> nodes st
               ∧ edge_target e ∈ node_id <$> nodes st) (edges st).

(** A node with the marker and no measured size; an edge with a kind and
    without comment and label. *)
Definition plain_node (n : Node) : Prop :=
  node_type n = Some "graphNode" ∧ node_width n = None ∧ node_height n = None.

Definition plain_edge (e : Edge) : Prop :=
  is_Some (edge_type e) ∧ edge_data e = None ∧ edge_label e = None.

(** ** Sample states and documents *)

(** Four nodes in a column, the first at (100, 50) and none selected, with
    the counter at 5. *)
Definition columnState : EditorState :=
  let stub (py : Z) : Node :=
    {| node_id := "root"; node_type := None;
       node_position := {| x := 100; y := py |};
       node_data := node_data rootStub;
       node_width := None; node_height := None |} in
  {| nodes := [ createChildNode (stub 50) "1" 0;
                createChildNode (stub 50) "2" 150;
                createChildNode (stub 200) "3" 150;
                createChildNode (stub 350) "4" 150 ];
     edges := [];
     rates := DEFAULT_RATES;
     idCounter := 5;
     selectedNodeId := None;
     selectedEdge := None;
     edgeComment := "" |}.

(** The editor after [Add Node], a double click on the new edge, the text
    "review" typed into the dialog, and its [Save]. *)
Definition commentedState : EditorState :=
  let st1 := (addNode initialState).1 in
  let st2 := match head (edges st1) with
             | Some e => (onEdgeDoubleClick e st1).1
             | None => st1
             end in
  let st3 := (setEdgeComment "review" st2).1 in
  (saveEdgeComment st3).1.

(** A document with the nodes "1" and "3": what [handleSave] writes once
    "2" of three nodes was removed. *)
Definition sparseDocument : PersistFile :=
  let rec (i : string) (py : Z) : PersistNode :=
    {| pn_id := i; pn_position := {| x := 250; y := py |};
       pn_data := node_data (createChildNode rootStub i 0);
       pn_type := None; pn_width := None; pn_height := None |} in
  {| pf_nodes := Some [rec "1" 25; rec "3" 325];
     pf_edges := Some [];
     pf_rates := Some DEFAULT_RATES |}.

(** A document whose rate table holds one of the six keys. *)
Definition partialRatesDocument : PersistFile :=
  {| pf_nodes := Some []; pf_edges := Some [];
     pf_rates := Some {["Design-simple" := 120]} |}.

(** A document without a rate table. *)
Definition noRatesDocument : PersistFile :=
  {| pf_nodes := Some []; pf_edges := Some []; pf_rates := None |}.

(** A document whose one node record carries a kind of its own. *)
Definition typedNodeDocument : PersistFile :=
  {| pf_nodes := Some [
       {| pn_id := "1"; pn_position := {| x := 0; y := 0 |};
          pn_data := node_data (createChildNode rootStub "1" 0);
          pn_type := Some "input"; pn_width := None; pn_height := None |} ];
     pf_edges := Some [];
     pf_rates := Some DEFAULT_RATES |}.

(** A document with two node records and one edge entry, none of them
    with a kind. *)
Definition untypedDocument : PersistFile :=
  let rec (i : string) (py : Z) : PersistNode :=
    {| pn_id := i; pn_position := {| x := 0; y := py |};
       pn_data := node_data (createChildNode rootStub i 0);
       pn_type := None; pn_width := None; pn_height := None |} in
  {| pf_nodes := Some [rec "1" 0; rec "2" 150];
     pf_edges := Some [ {| pe_id := "e1-2"; pe_source := "1"; pe_target := "2";
                           pe_type := None; pe_data := None; pe_label := None |} ];
     pf_rates := None |}.

(** A parser that knows the text of the empty object and nothing else. *)
Definition parse_empty_object (s : string) : option PersistFile :=
  if bool_decide (s = "{}")
  then Some {| pf_nodes := None; pf_edges := None; pf_rates := None |}
  else None.

(** ** Runs of the editor *)

(** The user actions the handlers above serve, and a save followed at once
    by a load of the saved document.  Changes that the rendering surface
    computes itself (dragging, removing, connecting by hand) are not among
    them. *)
Inductive Action :=
  | AddNode
  | NodeClick (node : Node)
  | EdgeDoubleClick (edge : Edge)
  | TypeEdgeComment (text : string)
  | SaveEdgeComment
  | RateChange (work : string) (val : Z)
  | SaveAndLoad.

Definition step (st : EditorState) (a : Action) : EditorState :=
  match a with
  | AddNode => (addNode st).1
  | NodeClick node => (onNodeClick node st).1
  | EdgeDoubleClick edge => (onEdgeDoubleClick edge st).1
  | TypeEdgeComment text => (setEdgeComment text st).1
  | SaveEdgeComment => (saveEdgeComment st).1
  | RateChange work val => (handleRateChange work val st).1
  | SaveAndLoad => deserialize (handleSave st) st
  end.

Definition run (acts : list Action) (st : EditorState) : EditorState :=
  foldl step st acts.

(** What every run from [initialState] keeps: the nodes are numbered
    "1", "2", ... in order and the counter is the next number; every node
    is plain; every edge has a kind and joins two nodes of the list. *)
Definition editor_inv (st : EditorState) : Prop :=
  nodes st ≠ []
  ∧ idCounter st = Z.of_nat (length (nodes st)) + 1
  ∧ node_id <$> nodes st = pretty <$> seqZ 1 (Z.of_nat (length (nodes st)))
  ∧ Forall plain_node (nodes st)
  ∧ Forall (λ e, is_Some (edge_type e)) (edges st)
  ∧ no_dangling_edges st.

(** ** Geometry *)

(** The size [exportImage] takes for a node. *)
Definition node_w (n : Node) : Z := default 250 (node_width n).
Definition node_h (n : Node) : Z := default 150 (node_height n).

(** [n] moved by [(dx, dy)]. *)
Definition moveBy (dx dy : Z) (n : Node) : Node :=
  {| node_id := node_id n; node_type := node_type n;
     node_position := {| x := x (node_position n) + dx;
                         y := y (node_position n) + dy |};
     node_data := node_data n;
     node_width := node_width n; node_height := node_height n |}.

(** The four numbers of a box that has them. *)
Definition box (x0 y0 x1 y1 : Z) : Bounds :=
  {| minX := Num x0; minY := Num y0; maxX := Num x1; maxY := Num y1 |}.

(** A box moved by [(dx, dy)], infinite sides staying where they are. *)
Definition shiftBounds (dx dy : Z) (b : Bounds) : Bounds :=
  {| minX := num_add (minX b) (Num dx); minY := num_add (minY b) (Num dy);
     maxX := num_add (maxX b) (Num dx); maxY := num_add (maxY b) (Num dy) |}.

(** The sum over the six work types of quantity times rate, a missing rate
    counting as 0. *)
Definition priced (counts rates : gmap string Z) : Z :=
  foldr (λ wt acc, count_at counts wt * default 0 (rates !! wt) + acc) 0 WORK_TYPES.

(** A document whose one edge starts at a node that is not there. *)
Definition danglingDocument : PersistFile :=
  {| pf_nodes := Some [
       {| pn_id := "1"; pn_position := {| x := 0; y := 0 |};
          pn_data := node_data (createChildNode rootStub "1" 0);
          pn_type := None; pn_width := None; pn_height := None |} ];
     pf_edges := Some [
       {| pe_id := "e9-1"; pe_source := "9"; pe_target := "1";
          pe_type := None;
          pe_data := Some {| edge_comment := Some "lost" |};
          pe_label := Some "lost" |} ];
     pf_rates := None |}.


(** ** Dialog and tabs *)


(** A double click on a node, followed by the effect that fills the form. *)
Definition openNodeDialog (node : Node) (ui : DialogState) : DialogState :=
  syncFormState (onNodeDoubleClick node ui).

(** A series of clicks on tab triggers, by their values. *)
Definition clicks (vs : list string) (ctx : TabsContext) : TabsContext :=
  foldl (λ c v, TabsTrigger_onClick v c) ctx vs.
(** * Properties *)

Ltac decide_closed := apply (bool_decide_unpack _); vm_compute; exact I.

(** ** The estimate tables *)

Section Summary.
Implicit Types (c : gmap string Z) (n : Node) (f : option CreateType).

Lemma count_at_bump k j c :
  count_at (bump k c) j = if decide (k = j) then count_at c k + 1 else count_at c j.
Proof.
  unfold bump, count_at at 1. rewrite lookup_insert.
  destruct (decide (k = j)); reflexivity.
Qed.

Lemma count_at_countNode f c n j :
  count_at (countNode f c n) j = count_at c j + hits f n j.
Proof.
  unfold countNode, hits.
  generalize ("Design-" +:+ Difficulty_str (designDifficulty (node_data n))) as kd.
  generalize ("Coding-" +:+ Difficulty_str (codingDifficulty (node_data n))) as kc.
  intros kc kd.
  destruct (passes f (designType (node_data n))),
           (passes f (codingType (node_data n)));
    rewrite ?count_at_bump;
    repeat case_decide; subst; try lia; congruence.
Qed.

Lemma count_at_foldl f ns : ∀ c j,
  count_at (foldl (countNode f) c ns) j
  = count_at c j + foldr (λ n acc, hits f n j + acc) 0 ns.
Proof.
  induction ns as [|n ns IH]; intros c j; simpl.
  - lia.
  - rewrite IH, count_at_countNode. lia.
Qed.

Lemma count_at_zero_counts j : count_at zero_counts j = 0.
Proof.
  unfold count_at. destruct (zero_counts !! j) as [v|] eqn:E; [|reflexivity].
  apply elem_of_list_to_map_2 in E.
  apply list_elem_of_fmap in E as (k & [= -> ->] & _). reflexivity.
Qed.

Lemma count_at_tally f ns j :
  count_at (tally f ns) j = foldr (λ n acc, hits f n j + acc) 0 ns.
Proof. unfold tally. rewrite count_at_foldl, count_at_zero_counts. lia. Qed.

(** A creation type is [new] or [adapt], so the two filters split what
    the absent filter lets through. *)
Lemma hits_split n j : hits None n j = hits (Some new) n j + hits (Some adapt) n j.
Proof.
  unfold hits, passes.
  destruct (designType (node_data n)), (codingType (node_data n));
    repeat case_bool_decide; try congruence;
    repeat case_decide; lia.
Qed.

Lemma tally_split ns j :
  count_at (tally None ns) j
  = count_at (tally (Some new) ns) j + count_at (tally (Some adapt) ns) j.
Proof.
  rewrite !count_at_tally.
  induction ns as [|n ns IH]; simpl; [reflexivity|].
  rewrite IH, hits_split. lia.
Qed.

(** The keys [countNode] bumps are work types, and the table holds every
    work type from the start, so [count_at] never falls back on its
    default and [bump] never meets a missing entry. *)
Lemma bumped_keys_are_work_types n :
  "Design-" +:+ Difficulty_str (designDifficulty (node_data n)) ∈ WORK_TYPES
  ∧ "Coding-" +:+ Difficulty_str (codingDifficulty (node_data n)) ∈ WORK_TYPES.
Proof.
  destruct (designDifficulty (node_data n)), (codingDifficulty (node_data n));
    split; decide_closed.
Qed.

Lemma bump_keeps_keys k c j : is_Some (c !! j) → is_Some (bump k c !! j).
Proof.
  intros H. unfold bump. rewrite lookup_insert.
  destruct (decide (k = j)); [by eexists | exact H].
Qed.

Lemma countNode_keeps_keys f c n j :
  is_Some (c !! j) → is_Some (countNode f c n !! j).
Proof.
  intros H. unfold countNode.
  repeat case_match; auto using bump_keeps_keys.
Qed.

Lemma tally_has_every_work_type f ns wt :
  wt ∈ WORK_TYPES → is_Some (tally f ns !! wt).
Proof.
  intros Hwt. unfold tally.
  assert (H0 : is_Some (zero_counts !! wt)).
  { unfold WORK_TYPES in Hwt.
    repeat (apply elem_of_cons in Hwt as [-> | Hwt]; [by eexists|]).
    by apply elem_of_nil in Hwt. }
  revert H0. generalize zero_counts as c.
  induction ns as [|n ns IH]; intros c Hc; simpl; [exact Hc|].
  apply IH, countNode_keeps_keys, Hc.
Qed.

Lemma qty_buildSummary ns (R : gmap string Z) f :
  qty <$> buildSummary ns R f = count_at (tally f ns) <$> WORK_TYPES.
Proof. reflexivity. Qed.

Lemma qty_of_buildSummary ns (R : gmap string Z) f wt :
  wt ∈ WORK_TYPES →
  qty_of (buildSummary ns R f) wt = Some (count_at (tally f ns) wt).
Proof.
  unfold buildSummary. generalize (tally f ns) as c. intros c Hwt.
  unfold WORK_TYPES in Hwt.
  repeat (apply elem_of_cons in Hwt as [-> | Hwt]; [reflexivity|]).
  by apply elem_of_nil in Hwt.
Qed.

Lemma countNode_same_but_uploading f c a b :
  same_but_uploading a b → countNode f c a = countNode f c b.
Proof.
  unfold same_but_uploading, with_uploading, countNode.
  intros [= _ _ _ _ _ _ -> -> -> -> _ _]. reflexivity.
Qed.

Lemma tally_same_but_uploading f (N1 N2 : list Node) :
  Forall2 same_but_uploading N1 N2 → tally f N1 = tally f N2.
Proof.
  unfold tally. generalize zero_counts as c.
  intros c H. revert c.
  induction H as [|a b N1 N2 Hab _ IH]; intros c; simpl; [reflexivity|].
  rewrite (countNode_same_but_uploading f c a b Hab). apply IH.
Qed.
End Summary.

(** C2 — the filter partitions the counts: bucket by bucket, the table
    without a filter reports the quantity of the [new] table plus the
    quantity of the [adapt] table; both row by row in the fixed order and
    for every work-type key looked up by name. *)
Theorem buildSummary_filter_partition (N : list Node) (R : gmap string Z) :
  qty <$> buildSummary N R None
  = zip_with Z.add (qty <$> buildSummary N R (Some new))
                   (qty <$> buildSummary N R (Some adapt))
  ∧ Forall (λ wt,
      ∃ q qn qa,
        qty_of (buildSummary N R None) wt = Some q
        ∧ qty_of (buildSummary N R (Some new)) wt = Some qn
        ∧ qty_of (buildSummary N R (Some adapt)) wt = Some qa
        ∧ q = qn + qa) WORK_TYPES.
Proof.
  split.
  - rewrite !qty_buildSummary. unfold WORK_TYPES. simpl.
    by rewrite !tally_split.
  - apply Forall_forall. intros wt Hwt.
    eexists _, _, _.
    rewrite !qty_of_buildSummary by done.
    repeat split. apply tally_split.
Qed.

(** The scenario of the estimate tables: default rates, one node with
    design [new]/[complex] and coding [adapt]/[simple]. *)
Example buildSummary_scenario :
  let n := {| node_id := "1"; node_type := Some "graphNode";
              node_position := {| x := 0; y := 0 |};
              node_data := {| label := "a"; comment := ""; image := None;
                              uploading := no;
                              designType := new; designDifficulty := complex;
                              codingType := adapt; codingDifficulty := simple |};
              node_width := None; node_height := None |} in
  (λ r, (work r, qty r, sum r)) <$> buildSummary [n] DEFAULT_RATES (Some new)
  = [ ("Design-simple", 0, Num 0); ("Design-medium", 0, Num 0);
      ("Design-complex", 1, Num 300); ("Coding-simple", 0, Num 0);
      ("Coding-medium", 0, Num 0); ("Coding-complex", 0, Num 0) ]
  ∧ (λ r, (work r, qty r, sum r)) <$> buildSummary [n] DEFAULT_RATES (Some adapt)
  = [ ("Design-simple", 0, Num 0); ("Design-medium", 0, Num 0);
      ("Design-complex", 0, Num 0); ("Coding-simple", 1, Num 150);
      ("Coding-medium", 0, Num 0); ("Coding-complex", 0, Num 0) ].
Proof. split; vm_compute; reflexivity. Qed.

(** C9 — the [uploading] flag plays no part in the estimate: two node
    lists that agree node by node on everything but that flag get the same
    rows and the same total, for every rate table and every filter. *)
Theorem buildSummary_ignores_uploading
    (N1 N2 : list Node) (R : gmap string Z) (filter : option CreateType) :
  Forall2 same_but_uploading N1 N2 →
  buildSummary N1 R filter = buildSummary N2 R filter
  ∧ total (buildSummary N1 R filter) = total (buildSummary N2 R filter).
Proof.
  intros H. unfold buildSummary.
  rewrite (tally_same_but_uploading filter N1 N2 H). split; reflexivity.
Qed.

(** A node flagged [uploading: yes] is counted in the [new] table like its
    twin flagged [no]. *)
Lemma buildSummary_ignores_uploading_witness :
  let a := createChildNode rootStub "1" 0 in
  Forall2 same_but_uploading [with_uploading yes a] [with_uploading no a]
  ∧ buildSummary [with_uploading yes a] DEFAULT_RATES (Some new)
    = buildSummary [with_uploading no a] DEFAULT_RATES (Some new)
  ∧ total (buildSummary [with_uploading yes a] DEFAULT_RATES (Some new))
    = total (buildSummary [with_uploading no a] DEFAULT_RATES (Some new)).
Proof.
  intros a.
  assert (H : Forall2 same_but_uploading [with_uploading yes a] [with_uploading no a])
    by (repeat constructor).
  split; [exact H|].
  exact (buildSummary_ignores_uploading _ _ DEFAULT_RATES (Some new) H).
Defined.

(** ** Node creation *)

Lemma addNode_spec st p :
  addNode_parent st = Some p →
  addNode st =
    ({| nodes := nodes st ++ [createChildNode p (pretty (idCounter st)) 150];
        edges := edges st ++ [
          {| edge_id := "e" +:+ node_id p +:+ "-" +:+ pretty (idCounter st);
             edge_source := node_id p;
             edge_target := pretty (idCounter st);
             edge_type := Some "smoothstep";
             edge_data := None; edge_label := None |} ];
        rates := rates st;
        idCounter := idCounter st + 1;
        selectedNodeId := selectedNodeId st;
        selectedEdge := selectedEdge st;
        edgeComment := edgeComment st |}, Some tt).
Proof.
  unfold addNode_parent. intros Hp.
  unfold addNode, bind, reads, modify, deref. simpl.
  rewrite Hp. reflexivity.
Qed.

(** With nothing to hang the node on, only the counter moves. *)
Lemma addNode_no_parent st :
  addNode_parent st = None →
  addNode st = (with_idCounter (idCounter st + 1) st, None).
Proof.
  unfold addNode_parent. intros Hp.
  unfold addNode, bind, reads, modify, deref. simpl.
  rewrite Hp. reflexivity.
Qed.

(** C8 — adding a node with the fresh id "5" under a parent at (100, 50):
    the node list grows by exactly one node, with id "5", at (100, 200),
    with the default data; the edge list grows by exactly one edge, from
    the parent to "5"; the nodes and edges that were there stay as they
    were, in place. *)
Theorem addNode_placement (st : EditorState) (parent : Node) :
  addNode_parent st = Some parent →
  node_position parent = {| x := 100; y := 50 |} →
  idCounter st = 5 →
  ∃ newNode newEdge,
    nodes (addNode st).1 = nodes st ++ [newNode]
    ∧ edges (addNode st).1 = edges st ++ [newEdge]
    ∧ rates (addNode st).1 = rates st
    ∧ node_id newNode = "5"
    ∧ node_position newNode = {| x := 100; y := 200 |}
    ∧ node_data newNode =
        {| label := "Node 5"; comment := ""; image := None; uploading := no;
           designType := new; designDifficulty := simple;
           codingType := new; codingDifficulty := simple |}
    ∧ edge_source newEdge = node_id parent
    ∧ edge_target newEdge = "5"
    ∧ edge_id newEdge = "e" +:+ node_id parent +:+ "-5"
    ∧ edge_type newEdge = Some "smoothstep"
    ∧ edge_data newEdge = None ∧ edge_label newEdge = None.
Proof.
  intros Hp Hpos Hc.
  rewrite (addNode_spec st parent Hp), Hc. simpl.
  eexists _, _. split; [reflexivity|]. split; [reflexivity|].
  unfold createChildNode. rewrite Hpos. simpl.
  repeat split.
Qed.

Lemma addNode_placement_witness :
  ∃ parent,
    addNode_parent columnState = Some parent
    ∧ node_position parent = {| x := 100; y := 50 |}
    ∧ idCounter columnState = 5
    ∧ ∃ newNode newEdge,
        nodes (addNode columnState).1 = nodes columnState ++ [newNode]
        ∧ edges (addNode columnState).1 = edges columnState ++ [newEdge]
        ∧ rates (addNode columnState).1 = rates columnState
        ∧ node_id newNode = "5"
        ∧ node_position newNode = {| x := 100; y := 200 |}
        ∧ node_data newNode =
            {| label := "Node 5"; comment := ""; image := None; uploading := no;
               designType := new; designDifficulty := simple;
               codingType := new; codingDifficulty := simple |}
        ∧ edge_source newEdge = node_id parent
        ∧ edge_target newEdge = "5"
        ∧ edge_id newEdge = "e" +:+ node_id parent +:+ "-5"
        ∧ edge_type newEdge = Some "smoothstep"
        ∧ edge_data newEdge = None ∧ edge_label newEdge = None.
Proof.
  eexists. split; [reflexivity|]. split; [reflexivity|]. split; [reflexivity|].
  apply (addNode_placement columnState); reflexivity.
Defined.

(** ** Identifier allocation *)

(** The invariant is what [addNode] relies on: under it the id handed out
    is not in use, and the invariant holds again afterwards. *)
Lemma addNode_fresh st :
  ids_below_counter st →
  pretty (idCounter st) ∉ node_id <$> nodes st.
Proof. intros H Hin. specialize (H _ Hin). lia. Qed.

Lemma addNode_keeps_ids_below_counter st :
  ids_below_counter st → ids_below_counter (addNode st).1.
Proof.
  intros H. destruct (addNode_parent st) as [p|] eqn:Hp.
  - rewrite (addNode_spec st p Hp). unfold ids_below_counter. simpl.
    intros k. rewrite fmap_app, elem_of_app. simpl.
    intros [Hk | Hk%list_elem_of_singleton].
    + specialize (H k Hk). lia.
    + apply (inj pretty) in Hk. lia.
  - rewrite (addNode_no_parent st Hp). unfold ids_below_counter. simpl.
    intros k Hk. specialize (H k Hk). lia.
Qed.

Lemma initialState_ids_below_counter : ids_below_counter initialState.
Proof.
  intros k. simpl. intros Hk%list_elem_of_singleton.
  change "1" with (pretty 1) in Hk. apply (inj pretty) in Hk. lia.
Qed.

(** ** Save / Load *)

Section Codec.
Implicit Types (doc : PersistFile) (st : EditorState).

Lemma loadDocument_ok doc st ns es :
  pf_nodes doc = Some ns → pf_edges doc = Some es →
  loadDocument doc st =
    ({| nodes := enrichNode <$> ns;
        edges := enrichEdge <$> es;
        rates := default DEFAULT_RATES (pf_rates doc);
        idCounter := Z.of_nat (length ns) + 1;
        selectedNodeId := selectedNodeId st;
        selectedEdge := selectedEdge st;
        edgeComment := edgeComment st |}, Some tt).
Proof.
  intros Hn He. unfold loadDocument, bind. rewrite Hn, He. reflexivity.
Qed.

(** No [nodes] array: the first statement throws, nothing was written. *)
Lemma loadDocument_no_nodes doc st :
  pf_nodes doc = None → loadDocument doc st = (st, None).
Proof. intros Hn. unfold loadDocument, bind. rewrite Hn. reflexivity. Qed.

(** A [nodes] array but no [edges] array: the nodes are already replaced
    when the exception is thrown; edges, rates and counter are the old
    ones. *)
Lemma loadDocument_no_edges doc st ns :
  pf_nodes doc = Some ns → pf_edges doc = None →
  loadDocument doc st = (with_nodes (λ _, enrichNode <$> ns) st, None).
Proof.
  intros Hn He. unfold loadDocument, bind. rewrite Hn, He. reflexivity.
Qed.

Lemma deserialize_ok doc st ns es :
  pf_nodes doc = Some ns → pf_edges doc = Some es →
  deserialize doc st =
    {| nodes := enrichNode <$> ns;
       edges := enrichEdge <$> es;
       rates := default DEFAULT_RATES (pf_rates doc);
       idCounter := Z.of_nat (length ns) + 1;
       selectedNodeId := selectedNodeId st;
       selectedEdge := selectedEdge st;
       edgeComment := edgeComment st |}.
Proof.
  intros Hn He. unfold deserialize, try_catch.
  rewrite (loadDocument_ok doc st ns es Hn He). reflexivity.
Qed.

Lemma deserialize_handleSave st st0 :
  deserialize (handleSave st) st0 =
    {| nodes := (λ n, enrichNode
                   {| pn_id := node_id n; pn_position := node_position n;
                      pn_data := node_data n; pn_type := None;
                      pn_width := None; pn_height := None |}) <$> nodes st;
       edges := (λ e, enrichEdge
                   {| pe_id := edge_id e; pe_source := edge_source e;
                      pe_target := edge_target e; pe_type := edge_type e;
                      pe_data := None; pe_label := None |}) <$> edges st;
       rates := rates st;
       idCounter := Z.of_nat (length (nodes st)) + 1;
       selectedNodeId := selectedNodeId st0;
       selectedEdge := selectedEdge st0;
       edgeComment := edgeComment st0 |}.
Proof.
  rewrite (deserialize_ok (handleSave st) st0 _ _ eq_refl eq_refl).
  simpl. rewrite <- !list_fmap_compose, length_fmap. reflexivity.
Qed.

Lemma plain_nodes_come_back (ns : list Node) :
  Forall plain_node ns →
  (λ n, enrichNode {| pn_id := node_id n; pn_position := node_position n;
                      pn_data := node_data n; pn_type := None;
                      pn_width := None; pn_height := None |}) <$> ns = ns.
Proof.
  induction 1 as [|n ns (Ht & Hw & Hh) _ IH]; [reflexivity|].
  rewrite fmap_cons, IH. f_equal.
  destruct n; simpl in *; subst; reflexivity.
Qed.

Lemma plain_edges_come_back (es : list Edge) :
  Forall plain_edge es →
  (λ e, enrichEdge {| pe_id := edge_id e; pe_source := edge_source e;
                      pe_target := edge_target e; pe_type := edge_type e;
                      pe_data := None; pe_label := None |}) <$> es = es.
Proof.
  induction 1 as [|e es ([k Hk] & Hd & Hl) _ IH]; [reflexivity|].
  rewrite fmap_cons, IH. f_equal.
  destruct e; simpl in *; subst; reflexivity.
Qed.

(** The counter the loader computes, in general. *)
Lemma load_counter doc st ns es :
  pf_nodes doc = Some ns → pf_edges doc = Some es →
  idCounter (deserialize doc st) = Z.of_nat (length ns) + 1.
Proof. intros Hn He. by rewrite (deserialize_ok doc st ns es Hn He). Qed.

(** A rate table that is there is installed as it is. *)
Lemma load_rates_present doc st ns es (r : gmap string Z) :
  pf_nodes doc = Some ns → pf_edges doc = Some es → pf_rates doc = Some r →
  rates (deserialize doc st) = r.
Proof.
  intros Hn He Hr. rewrite (deserialize_ok doc st ns es Hn He). simpl.
  by rewrite Hr.
Qed.
End Codec.

(** C1 — the round trip on the code, at a state within the side conditions
    whose one edge got the comment "review" through the dialog: the edge
    has the label before the save and has none after the load, so the
    loaded graph state is not the saved one.  [handleSave] leaves out of
    each edge the [data] and [label] that [PersistEdge] declares and that
    the loader would keep. *)
Lemma roundtrip_loses_edge_comment :
  fully_specified (rates commentedState)
  ∧ no_dangling_edges commentedState
  ∧ edge_label <$> edges commentedState = [Some "review"]
  ∧ edge_label <$> edges (deserialize (handleSave commentedState) commentedState)
    = [None]
  ∧ graph (deserialize (handleSave commentedState) commentedState)
    ≠ graph commentedState.
Proof.
  split; [decide_closed|]. split; [decide_closed|].
  split; [reflexivity|]. split; [reflexivity|].
  intros H. apply (f_equal (λ g, edge_label <$> g.1.2)) in H.
  vm_compute in H. discriminate H.
Qed.

(** What a save followed by a load does bring back, from any state and
    into any editor: the nodes with their ids, positions and data records,
    in order; the edges with their ids and endpoints, and with their kind
    when they had one (an edge without a kind comes back as "smoothstep");
    the rate table whole.  For a state whose nodes carry the marker and no
    measured size and whose edges have a kind and neither comment nor
    label, the graph state comes back as it was. *)
Theorem save_load_roundtrip (st st0 : EditorState) :
  let st' := deserialize (handleSave st) st0 in
  node_id <$> nodes st' = node_id <$> nodes st
  ∧ node_position <$> nodes st' = node_position <$> nodes st
  ∧ node_data <$> nodes st' = node_data <$> nodes st
  ∧ edge_id <$> edges st' = edge_id <$> edges st
  ∧ edge_source <$> edges st' = edge_source <$> edges st
  ∧ edge_target <$> edges st' = edge_target <$> edges st
  ∧ edge_type <$> edges st'
    = (λ e, Some (default "smoothstep" (edge_type e))) <$> edges st
  ∧ rates st' = rates st
  ∧ (Forall plain_node (nodes st) → Forall plain_edge (edges st) →
     graph st' = graph st).
Proof.
  intros st'. subst st'. rewrite deserialize_handleSave.
  unfold graph. cbn [nodes edges rates].
  repeat (split; [by rewrite <- list_fmap_compose|]).
  split; [reflexivity|].
  intros Hn He.
  rewrite (plain_nodes_come_back (nodes st) Hn).
  rewrite (plain_edges_come_back (edges st) He).
  reflexivity.
Qed.

(** The round trip on the editor after one [Add Node], loaded into a fresh
    editor. *)
Lemma save_load_roundtrip_witness :
  let st := (addNode initialState).1 in
  Forall plain_node (nodes st) ∧ Forall plain_edge (edges st)
  ∧ graph (deserialize (handleSave st) initialState) = graph st.
Proof.
  intros st.
  assert (Hn : Forall plain_node (nodes st)).
  { repeat constructor. }
  assert (He : Forall plain_edge (edges st)).
  { repeat constructor. by eexists. }
  split; [exact Hn|]. split; [exact He|].
  destruct (save_load_roundtrip st initialState)
    as (_ & _ & _ & _ & _ & _ & _ & _ & H).
  exact (H Hn He).
Defined.

(** C10 — the document [handleSave] writes holds, for each edge of the
    state and in order, an entry with that edge's id, source, target and
    kind and with neither comment data nor label; so also right after a
    comment was saved through the edge dialog. *)
Theorem handleSave_projects_edges (st : EditorState) :
  (∃ es, pf_edges (handleSave st) = Some es
         ∧ Forall2 (λ e pe,
              pe_id pe = edge_id e ∧ pe_source pe = edge_source e
              ∧ pe_target pe = edge_target e ∧ pe_type pe = edge_type e
              ∧ pe_data pe = None ∧ pe_label pe = None) (edges st) es)
  ∧ (∃ es, pf_edges (handleSave (saveEdgeComment st).1) = Some es
           ∧ length es = length (edges st)
           ∧ Forall (λ pe, pe_data pe = None ∧ pe_label pe = None) es).
Proof.
  split.
  - eexists. split; [reflexivity|].
    apply Forall2_fmap_r, Forall_Forall2_diag, Forall_true.
    intros e. simpl. repeat split.
  - eexists. split; [reflexivity|]. split.
    + unfold saveEdgeComment, bind, reads, setEdges, setSelectedEdge, modify.
      simpl. by rewrite !length_fmap.
    + apply Forall_fmap, Forall_true. intros e. split; reflexivity.
Qed.

(** The document saved from [commentedState]: the comment "review" is in
    the state and not in the document. *)
Example handleSave_commentedState :
  edge_label <$> edges commentedState = [Some "review"]
  ∧ edge_data <$> edges commentedState = [Some {| edge_comment := Some "review" |}]
  ∧ pf_edges (handleSave commentedState)
    = Some [ {| pe_id := "e1-2"; pe_source := "1"; pe_target := "2";
                pe_type := Some "smoothstep";
                pe_data := None; pe_label := None |} ].
Proof. repeat split. Qed.

(** *** The counter after a load *)

(** C3 — the counter after a load is the number of loaded nodes plus one,
    whatever their ids: loading [sparseDocument] succeeds and leaves the
    counter at 3 with a node "3" in the list, so the counter does not
    exceed the numeric ids in use, and the next [addNode] hands out "3" a
    second time. *)
Theorem load_counter_collides :
  let st := deserialize sparseDocument initialState in
  loadDocument sparseDocument initialState = (st, Some tt)
  ∧ node_id <$> nodes st = ["1"; "3"]
  ∧ idCounter st = 3
  ∧ ¬ ids_below_counter st
  ∧ node_id <$> nodes (addNode st).1 = ["1"; "3"; "3"]
  ∧ ¬ NoDup (node_id <$> nodes (addNode st).1).
Proof.
  intros st. split; [reflexivity|]. split; [reflexivity|].
  split; [reflexivity|]. split; [|split; [reflexivity|]].
  - intros H. specialize (H 3). simpl in H.
    assert (3 < 3); [|lia]. apply H.
    change (pretty 3) with "3". decide_closed.
  - intros H. change (node_id <$> nodes (addNode st).1) with ["1"; "3"; "3"] in H.
    apply NoDup_cons in H as [_ H]. apply NoDup_cons in H as [H _].
    apply H. left.
Qed.

(** *** Rates on load *)

(** C4, as stated, fails: the load of [partialRatesDocument] succeeds, and
    of the six keys only the one the document holds has a rate. *)
Lemma partial_rates_not_filled :
  let st := deserialize partialRatesDocument initialState in
  loadDocument partialRatesDocument initialState = (st, Some tt)
  ∧ rates st !! "Design-simple" = Some 120
  ∧ rates st !! "Design-medium" = None
  ∧ ¬ Forall (λ wt, is_Some (rates st !! wt)) WORK_TYPES.
Proof.
  intros st. split; [reflexivity|]. split; [reflexivity|].
  split; [reflexivity|].
  intros H. apply Forall_cons in H as [_ H]. apply Forall_cons in H as [[v H] _].
  vm_compute in H. discriminate H.
Qed.

(** C4, amended — a document with its node and edge arrays and without a
    rate table loads without failing, and the state gets the fixed default
    rate under each of the six keys. *)
Theorem load_rates_default (doc : PersistFile) (st : EditorState)
    (ns : list PersistNode) (es : list PersistEdge) :
  pf_nodes doc = Some ns → pf_edges doc = Some es → pf_rates doc = None →
  ∃ st', loadDocument doc st = (st', Some tt)
    ∧ deserialize doc st = st'
    ∧ rates st' = DEFAULT_RATES
    ∧ Forall (λ wt, is_Some (rates st' !! wt)) WORK_TYPES
    ∧ (λ wt, rates st' !! wt) <$> WORK_TYPES
      = [Some 100; Some 200; Some 300; Some 150; Some 300; Some 450].
Proof.
  intros Hn He Hr. eexists.
  split; [apply (loadDocument_ok doc st ns es Hn He)|].
  split; [apply (deserialize_ok doc st ns es Hn He)|].
  cbn [rates]. rewrite Hr.
  split; [reflexivity|]. split; [decide_closed | reflexivity].
Qed.

Lemma load_rates_default_witness :
  ∃ st', loadDocument noRatesDocument commentedState = (st', Some tt)
    ∧ deserialize noRatesDocument commentedState = st'
    ∧ rates st' = DEFAULT_RATES
    ∧ Forall (λ wt, is_Some (rates st' !! wt)) WORK_TYPES
    ∧ (λ wt, rates st' !! wt) <$> WORK_TYPES
      = [Some 100; Some 200; Some 300; Some 150; Some 300; Some 450].
Proof.
  exact (load_rates_default noRatesDocument commentedState [] []
           eq_refl eq_refl eq_refl).
Defined.

(** *** Kinds on load *)

(** C5, as stated, fails: the kind a node record carries survives the
    load; the marker is not put in its place. *)
Lemma load_keeps_node_kind :
  let st := deserialize typedNodeDocument initialState in
  loadDocument typedNodeDocument initialState = (st, Some tt)
  ∧ node_type <$> nodes st = [Some "input"]
  ∧ ¬ Forall (λ n, node_type n = Some "graphNode") (nodes st).
Proof.
  intros st. split; [reflexivity|]. split; [reflexivity|].
  intros H. apply Forall_cons in H as [H _]. vm_compute in H. discriminate H.
Qed.

(** C5, amended — after the load of a document with its node and edge
    arrays, record by record and in order: a node whose record has no kind
    of its own carries the marker "graphNode", and an edge whose entry has
    no kind carries "smoothstep". *)
Theorem load_normalizes_kinds (doc : PersistFile) (st : EditorState)
    (ns : list PersistNode) (es : list PersistEdge) :
  pf_nodes doc = Some ns → pf_edges doc = Some es →
  Forall2 (λ r n, pn_type r = None → node_type n = Some "graphNode")
          ns (nodes (deserialize doc st))
  ∧ Forall2 (λ r e, pe_type r = None → edge_type e = Some "smoothstep")
            es (edges (deserialize doc st)).
Proof.
  intros Hn He. rewrite (deserialize_ok doc st ns es Hn He). cbn [nodes edges].
  split; apply Forall2_fmap_r, Forall_Forall2_diag, Forall_true.
  - intros r Hr. simpl. rewrite Hr. reflexivity.
  - intros r Hr. simpl. rewrite Hr. reflexivity.
Qed.

(** On [untypedDocument] no record has a kind. *)
Lemma load_normalizes_kinds_witness :
  ∃ ns es,
    pf_nodes untypedDocument = Some ns
    ∧ pf_edges untypedDocument = Some es
    ∧ Forall2 (λ r n, pn_type r = None → node_type n = Some "graphNode")
              ns (nodes (deserialize untypedDocument initialState))
    ∧ Forall2 (λ r e, pe_type r = None → edge_type e = Some "smoothstep")
              es (edges (deserialize untypedDocument initialState)).
Proof.
  eexists _, _. split; [reflexivity|]. split; [reflexivity|].
  exact (load_normalizes_kinds untypedDocument initialState _ _ eq_refl eq_refl).
Defined.

Example load_untypedDocument :
  node_type <$> nodes (deserialize untypedDocument initialState)
  = [Some "graphNode"; Some "graphNode"]
  ∧ edge_type <$> edges (deserialize untypedDocument initialState)
    = [Some "smoothstep"].
Proof. split; reflexivity. Qed.

(** *** A file that does not parse *)

(** C6 — when [JSON.parse] rejects the text of the file, the handler ends
    in its [catch] without having written anything: nodes, edges and rates
    (and every other piece of the editor state) are the ones from before. *)
Theorem unparsable_file_leaves_state
    (JSON_parse : string → option PersistFile) (text : string) (st : EditorState) :
  JSON_parse text = None →
  reader_onload JSON_parse text st = (st, Some tt)
  ∧ graph (reader_onload JSON_parse text st).1 = graph st.
Proof.
  intros Hp. unfold reader_onload, try_catch, bind. rewrite Hp. simpl.
  split; reflexivity.
Qed.

(** A text cut off in the middle is rejected, and [commentedState] stays. *)
Lemma unparsable_file_leaves_state_witness :
  parse_empty_object "{ nodes: " = None
  ∧ reader_onload parse_empty_object "{ nodes: " commentedState
    = (commentedState, Some tt)
  ∧ graph (reader_onload parse_empty_object "{ nodes: " commentedState).1
    = graph commentedState.
Proof.
  split; [reflexivity|].
  exact (unparsable_file_leaves_state parse_empty_object "{ nodes: "
           commentedState eq_refl).
Defined.

(** A file that parses is another matter: without an [edges] array the
    handler has replaced the nodes before it reaches its [catch]. *)
Lemma parsed_file_without_edges_replaces_nodes
    (JSON_parse : string → option PersistFile) (text : string) (st : EditorState)
    (doc : PersistFile) (ns : list PersistNode) :
  JSON_parse text = Some doc →
  pf_nodes doc = Some ns → pf_edges doc = None →
  reader_onload JSON_parse text st
  = (with_nodes (λ _, enrichNode <$> ns) st, Some tt).
Proof.
  intros Hp Hn He. unfold reader_onload, try_catch, bind. rewrite Hp. simpl.
  rewrite (loadDocument_no_edges doc st ns Hn He). reflexivity.
Qed.

(** ** Export geometry *)

Lemma nodeBounds_two (a b : Node) :
  nodeBounds [a; b]
  = {| minX := Num (Z.min (x (node_position a)) (x (node_position b)));
       minY := Num (Z.min (y (node_position a)) (y (node_position b)));
       maxX := Num (Z.max (x (node_position a) + default 250 (node_width a))
                          (x (node_position b) + default 250 (node_width b)));
       maxY := Num (Z.max (y (node_position a) + default 150 (node_height a))
                          (y (node_position b) + default 150 (node_height b))) |}.
Proof. reflexivity. Qed.

(** C7 — two nodes, one at (0, 0) and one at (0, 300), both measured
    220 by 150, whatever else they carry: the box around them runs from
    (0, 0) to (220, 450), and with the padding of 64 on every side the
    exported surface is 348 wide and 578 high. *)
Theorem exportImage_two_nodes
    (id1 id2 : string) (t1 t2 : option string) (d1 d2 : NodeData) :
  let a := {| node_id := id1; node_type := t1;
              node_position := {| x := 0; y := 0 |}; node_data := d1;
              node_width := Some 220; node_height := Some 150 |} in
  let b := {| node_id := id2; node_type := t2;
              node_position := {| x := 0; y := 300 |}; node_data := d2;
              node_width := Some 220; node_height := Some 150 |} in
  PAD = 64
  ∧ nodeBounds [a; b]
    = {| minX := Num 0; minY := Num 0; maxX := Num 220; maxY := Num 450 |}
  ∧ fullW [a; b] = Num 348
  ∧ fullH [a; b] = Num 578
  ∧ fullW [a; b]
    = num_add (num_sub (maxX (nodeBounds [a; b])) (minX (nodeBounds [a; b])))
              (Num (2 * 64))
  ∧ fullH [a; b]
    = num_add (num_sub (maxY (nodeBounds [a; b])) (minY (nodeBounds [a; b])))
              (Num (2 * 64)).
Proof. intros a b. repeat split. Qed.

(** * Further properties *)

(** ** The estimate tables, continued *)

Section SummaryMore.
Implicit Types (c : gmap string Z) (n : Node) (f : option CreateType).

Lemma hits_design_total f n :
  hits f n "Design-simple" + hits f n "Design-medium" + hits f n "Design-complex"
  = if passes f (designType (node_data n)) then 1 else 0.
Proof.
  unfold hits.
  destruct (designDifficulty (node_data n)), (codingDifficulty (node_data n)),
    (passes f (designType (node_data n))), (passes f (codingType (node_data n)));
    reflexivity.
Qed.

Lemma hits_coding_total f n :
  hits f n "Coding-simple" + hits f n "Coding-medium" + hits f n "Coding-complex"
  = if passes f (codingType (node_data n)) then 1 else 0.
Proof.
  unfold hits.
  destruct (designDifficulty (node_data n)), (codingDifficulty (node_data n)),
    (passes f (designType (node_data n))), (passes f (codingType (node_data n)));
    reflexivity.
Qed.

Lemma hits_nonneg f n j : (0 ≤ hits f n j)%Z.
Proof. unfold hits. repeat case_match; lia. Qed.

Lemma count_at_tally_nonneg f ns j : (0 ≤ count_at (tally f ns) j)%Z.
Proof.
  rewrite count_at_tally. induction ns as [|n ns IH]; simpl; [lia|].
  pose proof (hits_nonneg f n j). lia.
Qed.

Lemma count_at_tally_snoc f ns n j :
  count_at (tally f (ns ++ [n])) j = count_at (tally f ns) j + hits f n j.
Proof.
  unfold tally. rewrite foldl_app. simpl. apply count_at_countNode.
Qed.

Lemma count_at_tally_perm f (N1 N2 : list Node) j :
  N1 ≡ₚ N2 → count_at (tally f N1) j = count_at (tally f N2) j.
Proof.
  intros H. rewrite !count_at_tally.
  induction H as [|n N1 N2 _ IH|a b N|N1 N2 N3 _ IH1 _ IH2]; simpl; lia.
Qed.

(** The rows depend on the nodes through the counts only. *)
Lemma buildSummary_ext (N1 N2 : list Node) (R : gmap string Z) f :
  (∀ j, count_at (tally f N1) j = count_at (tally f N2) j) →
  buildSummary N1 R f = buildSummary N2 R f.
Proof.
  intros H. unfold buildSummary. apply list_fmap_ext. intros _ wt _.
  by rewrite H.
Qed.
End SummaryMore.

(** X1 — the total of a table is a number exactly when every work type has
    a rate: then it is the sum of quantity times rate over the six rows;
    with a rate missing it is [NaN]. *)
Theorem total_buildSummary (N : list Node) (R : gmap string Z)
    (filter : option CreateType) :
  total (buildSummary N R filter)
  = if decide (Forall (λ wt, is_Some (R !! wt)) WORK_TYPES)
    then Num (priced (tally filter N) R)
    else NaN.
Proof.
  unfold buildSummary, total, priced, WORK_TYPES.
  generalize (tally filter N) as c. intros c.
  cbn [fmap list_fmap foldl foldr sum].
  case_decide as H.
  - repeat (apply Forall_cons in H as [[? ->] H]). simpl. f_equal. lia.
  - destruct (R !! "Design-simple") as [r1|] eqn:E1; [|reflexivity].
    destruct (R !! "Design-medium") as [r2|] eqn:E2; [|reflexivity].
    destruct (R !! "Design-complex") as [r3|] eqn:E3; [|reflexivity].
    destruct (R !! "Coding-simple") as [r4|] eqn:E4; [|reflexivity].
    destruct (R !! "Coding-medium") as [r5|] eqn:E5; [|reflexivity].
    destruct (R !! "Coding-complex") as [r6|] eqn:E6; [|reflexivity].
    exfalso. apply H.
    repeat (constructor; [by eexists|]). constructor.
Qed.

Lemma design_rows_total (f : option CreateType) (N : list Node) :
  count_at (tally f N) "Design-simple" + count_at (tally f N) "Design-medium"
  + count_at (tally f N) "Design-complex"
  = Z.of_nat (length (filter (λ n, passes f (designType (node_data n)) = true) N)).
Proof.
  rewrite !count_at_tally.
  induction N as [|n N IH]; [reflexivity|].
  rewrite filter_cons. pose proof (hits_design_total f n) as Hn.
  cbn [foldr]. destruct (passes f (designType (node_data n)));
    case_decide; try congruence; cbn [length]; lia.
Qed.

Lemma coding_rows_total (f : option CreateType) (N : list Node) :
  count_at (tally f N) "Coding-simple" + count_at (tally f N) "Coding-medium"
  + count_at (tally f N) "Coding-complex"
  = Z.of_nat (length (filter (λ n, passes f (codingType (node_data n)) = true) N)).
Proof.
  rewrite !count_at_tally.
  induction N as [|n N IH]; [reflexivity|].
  rewrite filter_cons. pose proof (hits_coding_total f n) as Hn.
  cbn [foldr]. destruct (passes f (codingType (node_data n)));
    case_decide; try congruence; cbn [length]; lia.
Qed.

Lemma filter_passes_None (g : Node → CreateType) (N : list Node) :
  filter (λ n, passes None (g n) = true) N = N.
Proof.
  induction N as [|n N IH]; [reflexivity|].
  rewrite filter_cons. case_decide; [by rewrite IH | done].
Qed.

(** X2 — what the quantities of a table add up to: the three Design rows
    together count the nodes whose design type passes the filter, the
    three Coding rows those whose coding type passes, and no quantity is
    negative. *)
Theorem buildSummary_quantities (N : list Node) (R : gmap string Z)
    (f : option CreateType) :
  ∃ d1 d2 d3 c1 c2 c3 : Z,
    qty <$> buildSummary N R f = [d1; d2; d3; c1; c2; c3]
    ∧ Forall (λ q, (0 ≤ q)%Z) [d1; d2; d3; c1; c2; c3]
    ∧ d1 + d2 + d3
      = Z.of_nat (length (filter (λ n, passes f (designType (node_data n)) = true) N))
    ∧ c1 + c2 + c3
      = Z.of_nat (length (filter (λ n, passes f (codingType (node_data n)) = true) N)).
Proof.
  eexists _, _, _, _, _, _. split; [reflexivity|].
  split; [repeat constructor; apply count_at_tally_nonneg|].
  split; [apply design_rows_total | apply coding_rows_total].
Qed.

(** Without a filter each phase counts every node once. *)
Lemma buildSummary_unfiltered_counts_all (N : list Node) (R : gmap string Z) :
  ∃ d1 d2 d3 c1 c2 c3 : Z,
    qty <$> buildSummary N R None = [d1; d2; d3; c1; c2; c3]
    ∧ d1 + d2 + d3 = Z.of_nat (length N)
    ∧ c1 + c2 + c3 = Z.of_nat (length N).
Proof.
  pose proof (design_rows_total None N) as Hd.
  pose proof (coding_rows_total None N) as Hc.
  rewrite filter_passes_None in Hd, Hc.
  eexists _, _, _, _, _, _. split; [reflexivity|].
  split; [exact Hd | exact Hc].
Qed.

(** X3 — the order of the nodes does not matter to a table: two lists with
    the same nodes in another order get the same rows. *)
Theorem buildSummary_permutation (N1 N2 : list Node) (R : gmap string Z)
    (f : option CreateType) :
  N1 ≡ₚ N2 → buildSummary N1 R f = buildSummary N2 R f.
Proof.
  intros H. apply buildSummary_ext. intros j. by apply count_at_tally_perm.
Qed.

Lemma buildSummary_permutation_witness :
  let a := createChildNode rootStub "1" 0 in
  let b := with_data
             {| label := "b"; comment := ""; image := None; uploading := yes;
                designType := adapt; designDifficulty := complex;
                codingType := new; codingDifficulty := medium |}
             (createChildNode rootStub "2" 150) in
  [a; b] ≡ₚ [b; a]
  ∧ buildSummary [a; b] DEFAULT_RATES (Some adapt)
    = buildSummary [b; a] DEFAULT_RATES (Some adapt).
Proof.
  intros a b.
  assert (H : [a; b] ≡ₚ [b; a]) by apply perm_swap.
  split; [exact H|].
  exact (buildSummary_permutation [a; b] [b; a] DEFAULT_RATES (Some adapt) H).
Defined.

(** X4 — [Add Node] and the estimate: the node it creates is [new] and
    [simple] in both phases, so in the table of new development the
    quantities of Design-simple and Coding-simple go up by one and the
    other four stay, and the adaptation table keeps all its rows. *)
Theorem addNode_in_summary (st : EditorState) (R : gmap string Z) (p : Node) :
  addNode_parent st = Some p →
  qty <$> buildSummary (nodes (addNode st).1) R (Some new)
  = zip_with Z.add (qty <$> buildSummary (nodes st) R (Some new)) [1; 0; 0; 1; 0; 0]
  ∧ buildSummary (nodes (addNode st).1) R (Some adapt)
    = buildSummary (nodes st) R (Some adapt).
Proof.
  intros Hp. rewrite (addNode_spec st p Hp). cbn [fst nodes]. split.
  - rewrite !qty_buildSummary. unfold WORK_TYPES.
    cbn [fmap list_fmap zip_with].
    rewrite !count_at_tally_snoc.
    repeat (f_equal; [reflexivity || (unfold hits; simpl; lia)|]).
    reflexivity.
  - apply buildSummary_ext. intros j. rewrite count_at_tally_snoc.
    unfold hits. simpl. lia.
Qed.

Lemma addNode_in_summary_witness :
  qty <$> buildSummary (nodes (addNode initialState).1) DEFAULT_RATES (Some new)
  = zip_with Z.add (qty <$> buildSummary (nodes initialState) DEFAULT_RATES (Some new))
                   [1; 0; 0; 1; 0; 0]
  ∧ buildSummary (nodes (addNode initialState).1) DEFAULT_RATES (Some adapt)
    = buildSummary (nodes initialState) DEFAULT_RATES (Some adapt).
Proof.
  exact (addNode_in_summary initialState DEFAULT_RATES _ eq_refl).
Defined.

(** X5 — an edited rate shows in the next table and nowhere else: after
    [handleRateChange w v] the nodes and edges are the same, the row of
    [w] has the rate [v] and the sum quantity times [v], and every other
    row is the one from before. *)
Theorem handleRateChange_in_summary (st : EditorState) (w : string) (v : Z)
    (f : option CreateType) :
  let st' := (handleRateChange w v st).1 in
  nodes st' = nodes st
  ∧ edges st' = edges st
  ∧ buildSummary (nodes st') (rates st') f
    = (λ r, if bool_decide (work r = w)
            then {| work := work r; rate := Some v;
                    qty := qty r; sum := Num (qty r * v) |}
            else r) <$> buildSummary (nodes st) (rates st) f.
Proof.
  intros st'. subst st'. split; [reflexivity|]. split; [reflexivity|].
  unfold buildSummary, handleRateChange, setRates, modify. cbn [fst nodes rates with_rates].
  rewrite <- list_fmap_compose. apply list_fmap_ext. intros _ wt _.
  cbn [compose work qty]. case_bool_decide as Hw.
  - subst. by rewrite lookup_insert_eq.
  - by rewrite lookup_insert_ne.
Qed.

(** ** Node creation, continued *)

Lemma selectedNode_elem st n : selectedNode st = Some n → n ∈ nodes st.
Proof.
  unfold selectedNode. destruct (selectedNodeId st) as [i|]; [|done].
  intros H%List.find_some. apply list_elem_of_In, H.
Qed.

Lemma selectedNode_id st n i :
  selectedNodeId st = Some i → selectedNode st = Some n → node_id n = i.
Proof.
  unfold selectedNode. intros ->. intros [_ H]%List.find_some.
  by apply bool_decide_eq_true in H.
Qed.

Lemma addNode_parent_elem st p : addNode_parent st = Some p → p ∈ nodes st.
Proof.
  unfold addNode_parent. destruct (selectedNode st) as [n|] eqn:Hs.
  - intros [= <-]. by apply selectedNode_elem.
  - destruct (nodes st) as [|n ns]; [done|]. intros [= <-]. left.
Qed.

Lemma addNode_parent_nonempty st :
  nodes st ≠ [] → ∃ p, addNode_parent st = Some p.
Proof.
  unfold addNode_parent. destruct (selectedNode st) as [n|]; [by eexists|].
  destruct (nodes st) as [|n ns]; [done|]. by eexists.
Qed.

(** X6 — [Add Node] on an empty node list: there is nothing to hang the
    node on, the handler throws, and the one thing it has done by then is
    to advance the counter; no node, no edge. *)
Theorem addNode_empty_store (st : EditorState) :
  nodes st = [] →
  addNode st = (with_idCounter (idCounter st + 1) st, None)
  ∧ graph (addNode st).1 = graph st
  ∧ idCounter (addNode st).1 = idCounter st + 1.
Proof.
  intros Hn.
  assert (Hp : addNode_parent st = None).
  { unfold addNode_parent, selectedNode. rewrite Hn.
    by destruct (selectedNodeId st). }
  rewrite (addNode_no_parent st Hp). repeat split.
Qed.

Lemma addNode_empty_store_witness :
  let st := deserialize noRatesDocument initialState in
  nodes st = []
  ∧ addNode st = (with_idCounter (idCounter st + 1) st, None)
  ∧ graph (addNode st).1 = graph st
  ∧ idCounter (addNode st).1 = idCounter st + 1.
Proof.
  intros st. split; [reflexivity|].
  exact (addNode_empty_store st eq_refl).
Defined.

(** X7 — under the allocation invariant [Add Node] keeps the node ids
    pairwise distinct, and the invariant holds again after it. *)
Theorem addNode_keeps_ids_unique (st : EditorState) :
  ids_below_counter st →
  NoDup (node_id <$> nodes st) →
  NoDup (node_id <$> nodes (addNode st).1)
  ∧ ids_below_counter (addNode st).1.
Proof.
  intros Hinv Hnd. split; [|by apply addNode_keeps_ids_below_counter].
  destruct (addNode_parent st) as [p|] eqn:Hp.
  - rewrite (addNode_spec st p Hp). cbn [fst nodes].
    rewrite fmap_app. apply NoDup_app. split; [exact Hnd|]. split.
    + intros i Hi Hi'%list_elem_of_singleton. subst i.
      by apply (addNode_fresh st Hinv).
    + apply NoDup_singleton.
  - by rewrite (addNode_no_parent st Hp).
Qed.

Lemma addNode_keeps_ids_unique_witness :
  ids_below_counter initialState
  ∧ NoDup (node_id <$> nodes initialState)
  ∧ NoDup (node_id <$> nodes (addNode initialState).1)
  ∧ ids_below_counter (addNode initialState).1.
Proof.
  assert (Hnd : NoDup (node_id <$> nodes initialState)) by apply NoDup_singleton.
  split; [exact initialState_ids_below_counter|]. split; [exact Hnd|].
  exact (addNode_keeps_ids_unique initialState initialState_ids_below_counter Hnd).
Defined.

Lemma find_first_with_id (i : string) (ns : list Node) :
  i ∈ node_id <$> ns →
  ∃ k p, List.find (λ n, bool_decide (node_id n = i)) ns = Some p
         ∧ ns !! k = Some p ∧ node_id p = i
         ∧ ∀ j q, ns !! j = Some q → (j < k)%nat → node_id q ≠ i.
Proof.
  induction ns as [|n ns IH]; intros Hin; [by apply elem_of_nil in Hin|].
  cbn [List.find]. case_bool_decide as Hn.
  - exists 0%nat, n. split; [done|]. split; [done|]. split; [done|].
    intros j q _ Hj. lia.
  - rewrite fmap_cons in Hin. apply elem_of_cons in Hin as [Hin|Hin]; [congruence|].
    destruct (IH Hin) as (k & p & Hp & Hk & Hid & Hfirst).
    exists (S k), p. split; [done|]. split; [done|]. split; [done|].
    intros [|j] q Hq Hj; cbn in Hq.
    + by injection Hq as <-.
    + apply (Hfirst j q Hq). lia.
Qed.

Lemma find_none_without_id (i : string) (ns : list Node) :
  i ∉ node_id <$> ns → List.find (λ n, bool_decide (node_id n = i)) ns = None.
Proof.
  intros Hin. destruct (List.find _ ns) as [p|] eqn:Hf; [|done].
  apply List.find_some in Hf as [Hp Hid]. apply bool_decide_eq_true in Hid.
  exfalso. apply Hin. apply list_elem_of_fmap. exists p.
  split; [done|]. by apply list_elem_of_In.
Qed.

(** X8 — the parent of the new node: with a node selected whose id is in
    the list, the first node with that id; with nothing selected, or with a
    selection that names no node of the list (as after a load), the first
    node of the list. *)
Theorem addNode_parent_choice (st : EditorState) :
  match selectedNodeId st with
  | Some i =>
      if decide (i ∈ node_id <$> nodes st)
      then ∃ k p, addNode_parent st = Some p ∧ nodes st !! k = Some p
                  ∧ node_id p = i
                  ∧ ∀ j q, nodes st !! j = Some q → (j < k)%nat → node_id q ≠ i
      else addNode_parent st = head (nodes st)
  | None => addNode_parent st = head (nodes st)
  end
  ∧ nodes (addNode st).1
    = match addNode_parent st with
      | Some p => nodes st ++ [createChildNode p (pretty (idCounter st)) 150]
      | None => nodes st
      end
  ∧ edge_source <$> edges (addNode st).1
    = match addNode_parent st with
      | Some p => (edge_source <$> edges st) ++ [node_id p]
      | None => edge_source <$> edges st
      end.
Proof.
  split.
  - unfold addNode_parent, selectedNode.
    destruct (selectedNodeId st) as [i|]; [|reflexivity].
    case_decide as Hin.
    + destruct (find_first_with_id i (nodes st) Hin) as (k & p & Hp & H).
      exists k, p. by rewrite Hp.
    + by rewrite (find_none_without_id i (nodes st) Hin).
  - destruct (addNode_parent st) as [p|] eqn:Hp.
    + rewrite (addNode_spec st p Hp). cbn [fst nodes edges].
      by rewrite fmap_app.
    + by rewrite (addNode_no_parent st Hp).
Qed.

(** ** Runs of the editor *)

Section Runs.
Implicit Types (st : EditorState) (a : Action).

(** A change that leaves nodes and counter alone and keeps, edge by edge,
    the endpoints and the presence of a kind. *)
Lemma editor_inv_edges st st' :
  nodes st' = nodes st → idCounter st' = idCounter st →
  Forall2 (λ e e', edge_source e' = edge_source e
                   ∧ edge_target e' = edge_target e
                   ∧ is_Some (edge_type e')) (edges st) (edges st') →
  editor_inv st → editor_inv st'.
Proof.
  intros Hn Hc He (H1 & H2 & H3 & H4 & H5 & H6).
  unfold editor_inv, no_dangling_edges in *. rewrite Hn, Hc.
  repeat (split; [assumption|]). split.
  - clear -He. induction He as [|e e' es es' (_ & _ & Ht) _ IH]; constructor; done.
  - clear -He H6. induction He as [|e e' es es' (Hs & Ht & _) _ IH].
    + constructor.
    + apply Forall_cons in H6 as [[Hes Het] H6].
      constructor; [by rewrite Hs, Ht | by apply IH].
Qed.

Lemma editor_inv_same_graph st st' :
  nodes st' = nodes st → idCounter st' = idCounter st → edges st' = edges st →
  editor_inv st → editor_inv st'.
Proof.
  intros Hn Hc He Hinv. apply (editor_inv_edges st st' Hn Hc); [|exact Hinv].
  rewrite He. destruct Hinv as (_ & _ & _ & _ & H5 & _).
  apply Forall_Forall2_diag. eapply Forall_impl; [exact H5|]. by intros e He'.
Qed.

Lemma editor_inv_addNode st : editor_inv st → editor_inv (addNode st).1.
Proof.
  intros (H1 & H2 & H3 & H4 & H5 & H6).
  destruct (addNode_parent_nonempty st H1) as [p Hp].
  pose proof (addNode_parent_elem st p Hp) as Hpin.
  rewrite (addNode_spec st p Hp). unfold editor_inv, no_dangling_edges.
  cbn [fst nodes edges idCounter].
  rewrite length_app, fmap_app. cbn [length fmap list_fmap].
  replace (length (nodes st) + 1)%nat with (S (length (nodes st))) by lia.
  rewrite seqZ_S, fmap_app, <- H3, H2. cbn [fmap list_fmap].
  replace (1 + Z.of_nat (length (nodes st))) with (Z.of_nat (length (nodes st)) + 1) by lia.
  split; [by destruct (nodes st)|]. split; [lia|]. split; [reflexivity|].
  split; [apply Forall_app; split; [exact H4 | by repeat constructor]|].
  split; [apply Forall_app; split; [exact H5 | repeat constructor; by eexists]|].
  apply Forall_app. split.
  - eapply Forall_impl; [exact H6|]. intros e [Hs Ht].
    split; apply elem_of_app; by left.
  - repeat constructor; cbn [edge_source edge_target]; apply elem_of_app.
    + left. apply list_elem_of_fmap. by exists p.
    + right. left.
Qed.

Lemma editor_inv_saveEdgeComment st : editor_inv st → editor_inv (saveEdgeComment st).1.
Proof.
  intros Hinv. apply (editor_inv_edges st); [reflexivity..| |exact Hinv].
  unfold saveEdgeComment, bind, reads, setEdges, setSelectedEdge, modify.
  cbn [fst edges with_edges with_selectedEdge].
  apply Forall2_fmap_r, Forall_Forall2_diag.
  destruct Hinv as (_ & _ & _ & _ & H5 & _).
  eapply Forall_impl; [exact H5|]. intros e He. unfold compose. cbn beta in *.
  case_match; repeat split; exact He.
Qed.

Lemma editor_inv_reload st st0 :
  editor_inv st → editor_inv (deserialize (handleSave st) st0).
Proof.
  intros Hinv. pose proof Hinv as (_ & H2 & _ & H4 & _ & _).
  apply (editor_inv_edges st); [..|exact Hinv];
    rewrite deserialize_handleSave; cbn [nodes edges idCounter].
  - by apply plain_nodes_come_back.
  - by rewrite H2.
  - apply Forall2_fmap_r, Forall_Forall2_diag, Forall_true.
    intros e. repeat split. by eexists.
Qed.

Lemma editor_inv_step st a : editor_inv st → editor_inv (step st a).
Proof.
  destruct a; cbn [step].
  - apply editor_inv_addNode.
  - by apply editor_inv_same_graph.
  - by apply editor_inv_same_graph.
  - by apply editor_inv_same_graph.
  - apply editor_inv_saveEdgeComment.
  - by apply editor_inv_same_graph.
  - apply editor_inv_reload.
Qed.

Lemma editor_inv_foldl (acts : list Action) : ∀ st,
  editor_inv st → editor_inv (foldl step st acts).
Proof.
  induction acts as [|a acts IH]; intros st Hst; [exact Hst|].
  cbn [foldl]. apply IH, editor_inv_step, Hst.
Qed.

Lemma editor_inv_initialState : editor_inv initialState.
Proof.
  unfold editor_inv. split; [done|]. split; [reflexivity|].
  split; [reflexivity|]. split; [by repeat constructor|].
  split; [constructor | constructor].
Qed.

Lemma editor_inv_ids st :
  editor_inv st → NoDup (node_id <$> nodes st) ∧ ids_below_counter st.
Proof.
  intros (_ & H2 & H3 & _). split.
  - rewrite H3. apply (NoDup_fmap_2 _), NoDup_seqZ.
  - intros k. rewrite H3, H2. intros (k' & Hk%(inj pretty) & Hin)%list_elem_of_fmap.
    subst k'. apply elem_of_seqZ in Hin. lia.
Qed.
End Runs.

(** X9 — whatever the user does through the editor's own handlers (add
    nodes, select, comment edges, edit rates, save and load again),
    starting from the initial state: the nodes are numbered "1", "2", ...
    in the order of the list and the counter is the next number, every
    node carries the marker and no size, every edge has a kind and both
    its endpoints are nodes of the list. *)
Theorem run_keeps_editor_inv (acts : list Action) :
  editor_inv (run acts initialState).
Proof. unfold run. apply editor_inv_foldl, editor_inv_initialState. Qed.

(** X10 — after any such run the node ids are pairwise distinct and below
    the counter, and a save followed by a load, into any editor, brings
    back the same nodes, the same rates and the same counter, with the
    allocation invariant intact. *)
Theorem run_save_load (acts : list Action) (st0 : EditorState) :
  let st := run acts initialState in
  let st' := deserialize (handleSave st) st0 in
  NoDup (node_id <$> nodes st)
  ∧ ids_below_counter st
  ∧ nodes st' = nodes st
  ∧ rates st' = rates st
  ∧ idCounter st' = idCounter st
  ∧ ids_below_counter st'.
Proof.
  intros st st'.
  assert (Hinv : editor_inv st)
    by apply editor_inv_foldl, editor_inv_initialState.
  pose proof (editor_inv_reload st st0 Hinv) as Hinv'. fold st' in Hinv'.
  destruct (editor_inv_ids st Hinv) as [Hnd Hb].
  destruct (editor_inv_ids st' Hinv') as [_ Hb'].
  pose proof Hinv as (_ & H2 & _ & H4 & _ & _).
  subst st'. rewrite deserialize_handleSave in *. cbn [nodes rates idCounter] in *.
  rewrite (plain_nodes_come_back _ H4) in *.
  repeat split; try assumption. by rewrite H2.
Qed.

(** ** The edge comment dialog *)

Lemma saveEdgeComment_edges (st : EditorState) :
  edges (saveEdgeComment st).1
  = (λ e, if bool_decide (Some (edge_id e) = selectedEdge st)
          then {| edge_id := edge_id e; edge_source := edge_source e;
                  edge_target := edge_target e; edge_type := edge_type e;
                  edge_data := Some {| edge_comment := Some (edgeComment st) |};
                  edge_label := Some (edgeComment st) |}
          else e) <$> edges st.
Proof. reflexivity. Qed.

(** X11 — [Save] in the edge dialog: every edge with the selected id gets
    the text as comment and as label, identical; every other edge is left
    as it is; no edge is added, dropped or moved, and ids, endpoints and
    kinds stay.  Nodes and rates are untouched and the selection is
    cleared.  With no edge selected, no edge changes. *)
Theorem saveEdgeComment_effect (st : EditorState) :
  let st' := (saveEdgeComment st).1 in
  nodes st' = nodes st
  ∧ rates st' = rates st
  ∧ selectedEdge st' = None
  ∧ Forall2 (λ e e',
       edge_id e' = edge_id e ∧ edge_source e' = edge_source e
       ∧ edge_target e' = edge_target e ∧ edge_type e' = edge_type e
       ∧ if decide (Some (edge_id e) = selectedEdge st)
         then edge_label e' = Some (edgeComment st)
              ∧ edge_data e' = Some {| edge_comment := Some (edgeComment st) |}
         else e' = e) (edges st) (edges st').
Proof.
  intros st'. subst st'. split; [reflexivity|]. split; [reflexivity|].
  split; [reflexivity|]. rewrite saveEdgeComment_edges.
  apply Forall2_fmap_r, Forall_Forall2_diag, Forall_true. intros e.
  unfold compose. cbn beta. case_bool_decide; case_decide; done.
Qed.

(** X12 — what was saved is what the dialog shows next time: after a
    double click on an edge of the list, typing a text and [Save], the
    list still has an edge with that id, and a double click on any edge
    with that id opens the dialog with exactly that text. *)
Theorem edge_comment_read_back (st : EditorState) (e : Edge) (text : string) :
  e ∈ edges st →
  let st1 := run [EdgeDoubleClick e; TypeEdgeComment text; SaveEdgeComment] st in
  (∃ e', e' ∈ edges st1 ∧ edge_id e' = edge_id e)
  ∧ ∀ e', e' ∈ edges st1 → edge_id e' = edge_id e →
      edge_label e' = Some text
      ∧ edgeComment (step st1 (EdgeDoubleClick e')) = text
      ∧ selectedEdge (step st1 (EdgeDoubleClick e')) = Some (edge_id e).
Proof.
  intros He st1.
  assert (Hedges : edges st1
    = (λ e0, if bool_decide (Some (edge_id e0) = Some (edge_id e))
             then {| edge_id := edge_id e0; edge_source := edge_source e0;
                     edge_target := edge_target e0; edge_type := edge_type e0;
                     edge_data := Some {| edge_comment := Some text |};
                     edge_label := Some text |}
             else e0) <$> edges st) by reflexivity.
  split.
  - eexists. split.
    + rewrite Hedges. apply list_elem_of_fmap. exists e. split; [reflexivity|exact He].
    + by rewrite bool_decide_eq_true_2.
  - intros e' He' Hid. rewrite Hedges in He'.
    apply list_elem_of_fmap in He' as (e0 & -> & _).
    case_bool_decide as Hsel.
    + cbn in Hid |- *. by rewrite Hid.
    + congruence.
Qed.

Lemma edge_comment_read_back_witness :
  let st := (addNode initialState).1 in
  let e := {| edge_id := "e1-2"; edge_source := "1"; edge_target := "2";
              edge_type := Some "smoothstep";
              edge_data := None; edge_label := None |} in
  let st1 := run [EdgeDoubleClick e; TypeEdgeComment "review"; SaveEdgeComment] st in
  e ∈ edges st
  ∧ (∃ e', e' ∈ edges st1 ∧ edge_id e' = edge_id e)
  ∧ ∀ e', e' ∈ edges st1 → edge_id e' = edge_id e →
      edge_label e' = Some "review"
      ∧ edgeComment (step st1 (EdgeDoubleClick e')) = "review"
      ∧ selectedEdge (step st1 (EdgeDoubleClick e')) = Some (edge_id e).
Proof.
  intros st e st1.
  assert (He : e ∈ edges st) by left.
  split; [exact He|].
  exact (edge_comment_read_back st e "review" He).
Defined.

(** X13 — opening the dialog and pressing [Save] without typing.  On an
    edge that has no comment yet this is not a no-op: the dialog starts
    from the empty text, and the edge ends up with the empty string as
    comment and as label.  On an edge whose comment and label were set
    through the dialog, and with edge ids pairwise distinct, the edge list
    is the same afterwards. *)
Theorem edge_dialog_save_untouched (st : EditorState) (e : Edge) :
  e ∈ edges st →
  let st1 := run [EdgeDoubleClick e; SaveEdgeComment] st in
  (edge_data e = None →
   {| edge_id := edge_id e; edge_source := edge_source e;
      edge_target := edge_target e; edge_type := edge_type e;
      edge_data := Some {| edge_comment := Some "" |};
      edge_label := Some "" |} ∈ edges st1)
  ∧ (∀ c, NoDup (edge_id <$> edges st) →
       edge_data e = Some {| edge_comment := Some c |} →
       edge_label e = Some c →
       edges st1 = edges st).
Proof.
  intros He st1.
  assert (Hedges : edges st1
    = (λ e0, if bool_decide (Some (edge_id e0) = Some (edge_id e))
             then {| edge_id := edge_id e0; edge_source := edge_source e0;
                     edge_target := edge_target e0; edge_type := edge_type e0;
                     edge_data := Some {| edge_comment :=
                       Some (default "" (edge_data e ≫= edge_comment)) |};
                     edge_label := Some (default "" (edge_data e ≫= edge_comment)) |}
             else e0) <$> edges st) by reflexivity.
  split.
  - intros Hd. rewrite Hedges, Hd. apply list_elem_of_fmap. exists e.
    split; [|exact He]. by rewrite bool_decide_eq_true_2.
  - intros c Hnd Hd Hl. rewrite Hedges, Hd. cbn [mbind option_bind edge_comment default].
    rewrite <- (list_fmap_id (edges st)) at 2.
    apply list_fmap_ext. intros k e0 Hk. cbn [id].
    case_bool_decide as Hsel; [|reflexivity].
    injection Hsel as Hsel.
    assert (e0 = e) as ->.
    { apply list_elem_of_lookup in He as [k' Hk'].
      assert (k = k') as ->.
      { apply (NoDup_lookup _ _ _ (edge_id e) Hnd);
          rewrite list_lookup_fmap; [by rewrite Hk; cbn; rewrite Hsel | by rewrite Hk']. }
      congruence. }
    destruct e; cbn in *; subst; reflexivity.
Qed.

Lemma edge_dialog_save_untouched_witness :
  let st := (addNode initialState).1 in
  let e := {| edge_id := "e1-2"; edge_source := "1"; edge_target := "2";
              edge_type := Some "smoothstep";
              edge_data := None; edge_label := None |} in
  let e' := {| edge_id := "e1-2"; edge_source := "1"; edge_target := "2";
               edge_type := Some "smoothstep";
               edge_data := Some {| edge_comment := Some "review" |};
               edge_label := Some "review" |} in
  e ∈ edges st
  ∧ edges (run [EdgeDoubleClick e; SaveEdgeComment] st)
    = [ {| edge_id := "e1-2"; edge_source := "1"; edge_target := "2";
           edge_type := Some "smoothstep";
           edge_data := Some {| edge_comment := Some "" |};
           edge_label := Some "" |} ]
  ∧ e' ∈ edges commentedState
  ∧ edges (run [EdgeDoubleClick e'; SaveEdgeComment] commentedState)
    = edges commentedState.
Proof.
  intros st e e'.
  assert (He : e ∈ edges st) by left.
  assert (He' : e' ∈ edges commentedState) by left.
  split; [exact He|]. split; [reflexivity|]. split; [exact He'|].
  destruct (edge_dialog_save_untouched commentedState e' He') as [_ H].
  apply (H "review"); [apply NoDup_singleton | reflexivity | reflexivity].
Defined.

(** ** Save / Load, continued *)

(** X14 — how a load ends, by what the parsed document holds.  Without a
    node array nothing is written.  With a node array and no edge array
    the nodes are replaced and then the handler stops: edges, rates and
    counter are the old ones.  With both arrays nodes, edges, rates and
    counter are all set from the document alone, and the selection and the
    dialog text are kept. *)
Theorem deserialize_outcomes (doc : PersistFile) (st : EditorState) :
  deserialize doc st =
    match pf_nodes doc, pf_edges doc with
    | None, _ => st
    | Some ns, None => with_nodes (λ _, enrichNode <$> ns) st
    | Some ns, Some es =>
        {| nodes := enrichNode <$> ns;
           edges := enrichEdge <$> es;
           rates := default DEFAULT_RATES (pf_rates doc);
           idCounter := Z.of_nat (length ns) + 1;
           selectedNodeId := selectedNodeId st;
           selectedEdge := selectedEdge st;
           edgeComment := edgeComment st |}
    end.
Proof.
  unfold deserialize, try_catch.
  destruct (pf_nodes doc) as [ns|] eqn:Hn.
  - destruct (pf_edges doc) as [es|] eqn:He.
    + by rewrite (loadDocument_ok doc st ns es Hn He).
    + by rewrite (loadDocument_no_edges doc st ns Hn He).
  - by rewrite (loadDocument_no_nodes doc st Hn).
Qed.

(** X15 — loading is idempotent: loading the same document a second time
    changes nothing, whatever the document holds. *)
Theorem deserialize_idempotent (doc : PersistFile) (st : EditorState) :
  deserialize doc (deserialize doc st) = deserialize doc st.
Proof.
  unfold deserialize, try_catch.
  destruct (pf_nodes doc) as [ns|] eqn:Hn.
  - destruct (pf_edges doc) as [es|] eqn:He.
    + by rewrite !(loadDocument_ok doc _ ns es Hn He).
    + by rewrite !(loadDocument_no_edges doc _ ns Hn He).
  - by rewrite !(loadDocument_no_nodes doc _ Hn).
Qed.

(** X16 — the loader takes every edge entry of the document as it comes:
    as many edges as entries, in order, each with the id, the endpoints,
    the comment data and the label of its entry.  Nothing is checked
    against the nodes, so an entry whose endpoint names no loaded node is
    loaded like any other. *)
Theorem load_keeps_every_edge (doc : PersistFile) (st : EditorState)
    (ns : list PersistNode) (es : list PersistEdge) :
  pf_nodes doc = Some ns → pf_edges doc = Some es →
  Forall2 (λ r e,
     edge_id e = pe_id r ∧ edge_source e = pe_source r
     ∧ edge_target e = pe_target r
     ∧ edge_data e = pe_data r ∧ edge_label e = pe_label r)
    es (edges (deserialize doc st))
  ∧ (∀ r, r ∈ es → pe_source r ∉ pn_id <$> ns →
       ∃ e, e ∈ edges (deserialize doc st)
            ∧ edge_source e = pe_source r
            ∧ edge_source e ∉ node_id <$> nodes (deserialize doc st)).
Proof.
  intros Hn He. rewrite (deserialize_ok doc st ns es Hn He). cbn [nodes edges].
  split.
  - apply Forall2_fmap_r, Forall_Forall2_diag, Forall_true. intros r. done.
  - intros r Hr Hs. exists (enrichEdge r). split; [|split; [reflexivity|]].
    + apply list_elem_of_fmap. by exists r.
    + rewrite <- list_fmap_compose. exact Hs.
Qed.

Lemma load_keeps_every_edge_witness :
  ∃ ns es,
    pf_nodes danglingDocument = Some ns ∧ pf_edges danglingDocument = Some es
    ∧ Forall2 (λ r e,
         edge_id e = pe_id r ∧ edge_source e = pe_source r
         ∧ edge_target e = pe_target r
         ∧ edge_data e = pe_data r ∧ edge_label e = pe_label r)
        es (edges (deserialize danglingDocument initialState))
    ∧ (∀ r, r ∈ es → pe_source r ∉ pn_id <$> ns →
         ∃ e, e ∈ edges (deserialize danglingDocument initialState)
              ∧ edge_source e = pe_source r
              ∧ edge_source e
                ∉ node_id <$> nodes (deserialize danglingDocument initialState)).
Proof.
  eexists _, _. split; [reflexivity|]. split; [reflexivity|].
  exact (load_keeps_every_edge danglingDocument initialState _ _ eq_refl eq_refl).
Defined.

(** X17 — one round trip normalizes: the state that comes out of a save
    followed by a load is a fixed point of saving and loading again; the
    whole editor state, counter and selection included, is then the
    same. *)
Theorem roundtrip_stable (st st0 : EditorState) :
  let st1 := deserialize (handleSave st) st0 in
  deserialize (handleSave st1) st1 = st1.
Proof.
  intros st1. subst st1. rewrite !deserialize_handleSave.
  cbn [nodes edges rates idCounter selectedNodeId selectedEdge edgeComment].
  rewrite <- !list_fmap_compose, !length_fmap. reflexivity.
Qed.

(** X18 — when the node ids of a document are the numbers 1 to n, in any
    order, the counter the loader sets lies above every numeric id, and
    the loaded ids are pairwise distinct: the next [Add Node] gets a fresh
    id. *)
Theorem load_sequential_ids (doc : PersistFile) (st : EditorState)
    (ns : list PersistNode) (es : list PersistEdge) :
  pf_nodes doc = Some ns → pf_edges doc = Some es →
  pn_id <$> ns ≡ₚ pretty <$> seqZ 1 (Z.of_nat (length ns)) →
  ids_below_counter (deserialize doc st)
  ∧ NoDup (node_id <$> nodes (deserialize doc st))
  ∧ pretty (idCounter (deserialize doc st)) ∉ node_id <$> nodes (deserialize doc st).
Proof.
  intros Hn He Hperm. rewrite (deserialize_ok doc st ns es Hn He).
  assert (Hids : node_id <$> (enrichNode <$> ns) = pn_id <$> ns).
  { rewrite <- list_fmap_compose. reflexivity. }
  assert (Hb : ids_below_counter
    {| nodes := enrichNode <$> ns; edges := enrichEdge <$> es;
       rates := default DEFAULT_RATES (pf_rates doc);
       idCounter := Z.of_nat (length ns) + 1;
       selectedNodeId := selectedNodeId st; selectedEdge := selectedEdge st;
       edgeComment := edgeComment st |}).
  { intros k. cbn [nodes idCounter]. rewrite Hids, Hperm.
    intros (k' & Hk%(inj pretty) & Hin)%list_elem_of_fmap.
    subst k'. apply elem_of_seqZ in Hin. lia. }
  split; [exact Hb|]. split.
  - cbn [nodes]. rewrite Hids, Hperm. apply (NoDup_fmap_2 _), NoDup_seqZ.
  - apply addNode_fresh, Hb.
Qed.

Lemma load_sequential_ids_witness :
  let rec (i : string) : PersistNode :=
    {| pn_id := i; pn_position := {| x := 0; y := 0 |};
       pn_data := node_data (createChildNode rootStub i 0);
       pn_type := None; pn_width := None; pn_height := None |} in
  let doc := {| pf_nodes := Some [rec "2"; rec "1"; rec "3"];
                pf_edges := Some []; pf_rates := None |} in
  ids_below_counter (deserialize doc initialState)
  ∧ NoDup (node_id <$> nodes (deserialize doc initialState))
  ∧ pretty (idCounter (deserialize doc initialState))
    ∉ node_id <$> nodes (deserialize doc initialState).
Proof.
  intros rec doc.
  apply (load_sequential_ids doc initialState [rec "2"; rec "1"; rec "3"] []
           eq_refl eq_refl).
  apply perm_swap.
Defined.

(** ** Export geometry, continued *)

Section Geometry.
Implicit Types (n : Node) (ns : list Node) (b : Bounds).

Lemma growBounds_box x0 y0 x1 y1 n :
  growBounds (box x0 y0 x1 y1) n
  = box (Z.min x0 (x (node_position n))) (Z.min y0 (y (node_position n)))
        (Z.max x1 (x (node_position n) + node_w n))
        (Z.max y1 (y (node_position n) + node_h n)).
Proof. reflexivity. Qed.

Lemma nodeBounds_cons n ns :
  nodeBounds (n :: ns)
  = foldl growBounds
      (box (x (node_position n)) (y (node_position n))
           (x (node_position n) + node_w n) (y (node_position n) + node_h n)) ns.
Proof. reflexivity. Qed.

(** Folding the reducer from a box: the result is a box that contains the
    start and every node passed, and each of its sides is a side of the
    start or of one of the nodes. *)
Lemma foldl_growBounds_box ns : ∀ x0 y0 x1 y1,
  ∃ x0' y0' x1' y1',
    foldl growBounds (box x0 y0 x1 y1) ns = box x0' y0' x1' y1'
    ∧ (x0' ≤ x0 ∧ y0' ≤ y0 ∧ x1 ≤ x1' ∧ y1 ≤ y1')%Z
    ∧ Forall (λ n, (x0' ≤ x (node_position n) ∧ y0' ≤ y (node_position n)
                    ∧ x (node_position n) + node_w n ≤ x1'
                    ∧ y (node_position n) + node_h n ≤ y1')%Z) ns
    ∧ (x0' = x0 ∨ ∃ n, n ∈ ns ∧ x0' = x (node_position n))
    ∧ (y0' = y0 ∨ ∃ n, n ∈ ns ∧ y0' = y (node_position n))
    ∧ (x1' = x1 ∨ ∃ n, n ∈ ns ∧ x1' = x (node_position n) + node_w n)
    ∧ (y1' = y1 ∨ ∃ n, n ∈ ns ∧ y1' = y (node_position n) + node_h n).
Proof.
  induction ns as [|n ns IH]; intros x0 y0 x1 y1.
  - exists x0, y0, x1, y1. split; [reflexivity|]. split; [lia|].
    split; [constructor|]. repeat split; by left.
  - cbn [foldl]. rewrite growBounds_box.
    destruct (IH (Z.min x0 (x (node_position n))) (Z.min y0 (y (node_position n)))
                 (Z.max x1 (x (node_position n) + node_w n))
                 (Z.max y1 (y (node_position n) + node_h n)))
      as (x0' & y0' & x1' & y1' & Hb & Hle & Hall & Hx0 & Hy0 & Hx1 & Hy1).
    exists x0', y0', x1', y1'. split; [exact Hb|]. split; [lia|].
    split; [constructor; [lia | exact Hall]|].
    repeat split.
    + destruct Hx0 as [->|(m & Hm & ->)].
      * destruct (Z.min_spec x0 (x (node_position n))) as [[_ ->]|[_ ->]];
          [by left | right; exists n; split; [left | reflexivity]].
      * right. exists m. split; [by right | reflexivity].
    + destruct Hy0 as [->|(m & Hm & ->)].
      * destruct (Z.min_spec y0 (y (node_position n))) as [[_ ->]|[_ ->]];
          [by left | right; exists n; split; [left | reflexivity]].
      * right. exists m. split; [by right | reflexivity].
    + destruct Hx1 as [->|(m & Hm & ->)].
      * destruct (Z.max_spec x1 (x (node_position n) + node_w n)) as [[_ ->]|[_ ->]];
          [right; exists n; split; [left | reflexivity] | by left].
      * right. exists m. split; [by right | reflexivity].
    + destruct Hy1 as [->|(m & Hm & ->)].
      * destruct (Z.max_spec y1 (y (node_position n) + node_h n)) as [[_ ->]|[_ ->]];
          [right; exists n; split; [left | reflexivity] | by left].
      * right. exists m. split; [by right | reflexivity].
Qed.

(** The box of a non-empty list: finite, around every node, with its
    left and top side on a node. *)
Lemma nodeBounds_cons_box n ns :
  ∃ x0 y0 x1 y1 : Z,
    nodeBounds (n :: ns) = box x0 y0 x1 y1
    ∧ Forall (λ m, (x0 ≤ x (node_position m) ∧ y0 ≤ y (node_position m)
                    ∧ x (node_position m) + node_w m ≤ x1
                    ∧ y (node_position m) + node_h m ≤ y1)%Z) (n :: ns)
    ∧ (∃ m, m ∈ n :: ns ∧ x0 = x (node_position m))
    ∧ (∃ m, m ∈ n :: ns ∧ y0 = y (node_position m))
    ∧ (∃ m, m ∈ n :: ns ∧ x1 = x (node_position m) + node_w m)
    ∧ (∃ m, m ∈ n :: ns ∧ y1 = y (node_position m) + node_h m).
Proof.
  rewrite nodeBounds_cons.
  destruct (foldl_growBounds_box ns
              (x (node_position n)) (y (node_position n))
              (x (node_position n) + node_w n) (y (node_position n) + node_h n))
    as (x0 & y0 & x1 & y1 & Hb & Hle & Hall & Hx0 & Hy0 & Hx1 & Hy1).
  exists x0, y0, x1, y1. split; [exact Hb|].
  split; [constructor; [lia | exact Hall]|].
  repeat split.
  - destruct Hx0 as [->|(m & Hm & ->)];
      [exists n; split; [left | reflexivity] | exists m; split; [by right | reflexivity]].
  - destruct Hy0 as [->|(m & Hm & ->)];
      [exists n; split; [left | reflexivity] | exists m; split; [by right | reflexivity]].
  - destruct Hx1 as [->|(m & Hm & ->)];
      [exists n; split; [left | reflexivity] | exists m; split; [by right | reflexivity]].
  - destruct Hy1 as [->|(m & Hm & ->)];
      [exists n; split; [left | reflexivity] | exists m; split; [by right | reflexivity]].
Qed.

Lemma Math_min_swap (a p q : number) :
  Math_min (Math_min a p) q = Math_min (Math_min a q) p.
Proof. destruct a, p, q; simpl; try reflexivity; f_equal; lia. Qed.

Lemma Math_max_swap (a p q : number) :
  Math_max (Math_max a p) q = Math_max (Math_max a q) p.
Proof. destruct a, p, q; simpl; try reflexivity; f_equal; lia. Qed.

Lemma growBounds_swap b n m :
  growBounds (growBounds b n) m = growBounds (growBounds b m) n.
Proof.
  unfold growBounds. cbn [minX minY maxX maxY].
  f_equal; apply Math_min_swap || apply Math_max_swap.
Qed.

Lemma foldl_growBounds_perm (N1 N2 : list Node) :
  N1 ≡ₚ N2 → ∀ b, foldl growBounds b N1 = foldl growBounds b N2.
Proof.
  induction 1 as [|n N1 N2 _ IH|n m N|N1 N2 N3 _ IH1 _ IH2]; intros b; cbn [foldl].
  - reflexivity.
  - apply IH.
  - by rewrite growBounds_swap.
  - by rewrite IH1.
Qed.

Lemma Math_min_shift (a : number) (p d : Z) :
  Math_min (num_add a (Num d)) (Num (p + d)) = num_add (Math_min a (Num p)) (Num d).
Proof. destruct a; simpl; try reflexivity; f_equal; lia. Qed.

Lemma Math_max_shift (a : number) (p d : Z) :
  Math_max (num_add a (Num d)) (Num (p + d)) = num_add (Math_max a (Num p)) (Num d).
Proof. destruct a; simpl; try reflexivity; f_equal; lia. Qed.

Lemma growBounds_shift dx dy b n :
  growBounds (shiftBounds dx dy b) (moveBy dx dy n)
  = shiftBounds dx dy (growBounds b n).
Proof.
  unfold growBounds, shiftBounds, moveBy.
  cbn [minX minY maxX maxY node_position node_width node_height x y].
  rewrite (Z.add_shuffle0 (x (node_position n)) dx).
  rewrite (Z.add_shuffle0 (y (node_position n)) dy).
  by rewrite !Math_min_shift, !Math_max_shift.
Qed.

Lemma nodeBounds_moveBy dx dy ns :
  nodeBounds (moveBy dx dy <$> ns) = shiftBounds dx dy (nodeBounds ns).
Proof.
  unfold nodeBounds.
  change {| minX := Infinity; minY := Infinity;
            maxX := NegInfinity; maxY := NegInfinity |}
    with (shiftBounds dx dy {| minX := Infinity; minY := Infinity;
                               maxX := NegInfinity; maxY := NegInfinity |}) at 1.
  generalize {| minX := Infinity; minY := Infinity;
                maxX := NegInfinity; maxY := NegInfinity |} as b.
  induction ns as [|n ns IH]; intros b; [reflexivity|].
  cbn [fmap list_fmap foldl]. rewrite growBounds_shift. apply IH.
Qed.

Lemma num_sub_shift (a c : number) (d : Z) :
  num_sub (num_add a (Num d)) (num_add c (Num d)) = num_sub a c.
Proof. destruct a, c; simpl; try reflexivity; f_equal; lia. Qed.

Lemma num_neg_shift (a : number) (d p : Z) :
  num_add (num_neg (num_add a (Num d))) (Num p)
  = num_add (num_add (num_neg a) (Num p)) (Num (- d)).
Proof. destruct a; simpl; try reflexivity; f_equal; lia. Qed.
End Geometry.

(** X19 — for a non-empty node list the reducer yields the smallest box
    around the nodes' rectangles (position to position plus size, the size
    being 250 by 150 where none was measured): every rectangle lies
    inside, and each of the four sides is the side of some node. *)
Theorem nodeBounds_minimal_box (ns : list Node) :
  ns ≠ [] →
  ∃ x0 y0 x1 y1 : Z,
    nodeBounds ns = box x0 y0 x1 y1
    ∧ Forall (λ n, (x0 ≤ x (node_position n) ∧ y0 ≤ y (node_position n)
                    ∧ x (node_position n) + node_w n ≤ x1
                    ∧ y (node_position n) + node_h n ≤ y1)%Z) ns
    ∧ (∃ n, n ∈ ns ∧ x0 = x (node_position n))
    ∧ (∃ n, n ∈ ns ∧ y0 = y (node_position n))
    ∧ (∃ n, n ∈ ns ∧ x1 = x (node_position n) + node_w n)
    ∧ (∃ n, n ∈ ns ∧ y1 = y (node_position n) + node_h n).
Proof.
  destruct ns as [|n ns]; [done|]. intros _. apply nodeBounds_cons_box.
Qed.

Lemma nodeBounds_minimal_box_witness :
  let ns := nodes (addNode initialState).1 in
  ns ≠ []
  ∧ ∃ x0 y0 x1 y1 : Z,
      nodeBounds ns = box x0 y0 x1 y1
      ∧ Forall (λ n, (x0 ≤ x (node_position n) ∧ y0 ≤ y (node_position n)
                      ∧ x (node_position n) + node_w n ≤ x1
                      ∧ y (node_position n) + node_h n ≤ y1)%Z) ns
      ∧ (∃ n, n ∈ ns ∧ x0 = x (node_position n))
      ∧ (∃ n, n ∈ ns ∧ y0 = y (node_position n))
      ∧ (∃ n, n ∈ ns ∧ x1 = x (node_position n) + node_w n)
      ∧ (∃ n, n ∈ ns ∧ y1 = y (node_position n) + node_h n).
Proof.
  intros ns.
  assert (H : ns ≠ []) by discriminate.
  split; [exact H|]. exact (nodeBounds_minimal_box ns H).
Defined.

(** X20 — the size of the exported surface.  On an empty node list both
    dimensions are [-Infinity].  On a non-empty one they are numbers, and
    the surface is large enough for each single node with the padding of
    64 on both sides. *)
Theorem export_surface_size (ns : list Node) :
  match ns with
  | [] => fullW ns = NegInfinity ∧ fullH ns = NegInfinity
  | _ :: _ =>
      ∃ w h : Z,
        fullW ns = Num w ∧ fullH ns = Num h
        ∧ Forall (λ n, (node_w n + 2 * 64 ≤ w ∧ node_h n + 2 * 64 ≤ h)%Z) ns
  end.
Proof.
  destruct ns as [|n ns]; [split; reflexivity|].
  destruct (nodeBounds_cons_box n ns) as (x0 & y0 & x1 & y1 & Hb & Hall & _).
  unfold fullW, fullH. rewrite Hb. cbn [box minX minY maxX maxY].
  eexists _, _. split; [reflexivity|]. split; [reflexivity|].
  eapply Forall_impl; [exact Hall|]. intros m Hm. cbn beta in *.
  unfold PAD. lia.
Qed.

(** X21 — the order of the nodes does not matter to the export: the box,
    the surface and the shift of the viewport are the same for a list and
    for any rearrangement of it. *)
Theorem export_permutation (N1 N2 : list Node) :
  N1 ≡ₚ N2 →
  nodeBounds N1 = nodeBounds N2
  ∧ fullW N1 = fullW N2 ∧ fullH N1 = fullH N2
  ∧ viewportShift N1 = viewportShift N2.
Proof.
  intros H. assert (Hb : nodeBounds N1 = nodeBounds N2).
  { unfold nodeBounds. by apply foldl_growBounds_perm. }
  unfold fullW, fullH, viewportShift. by rewrite Hb.
Qed.

Lemma export_permutation_witness :
  let a := createChildNode rootStub "1" 0 in
  let b := createChildNode a "2" 150 in
  [a; b] ≡ₚ [b; a]
  ∧ nodeBounds [a; b] = nodeBounds [b; a]
  ∧ fullW [a; b] = fullW [b; a] ∧ fullH [a; b] = fullH [b; a]
  ∧ viewportShift [a; b] = viewportShift [b; a].
Proof.
  intros a b.
  assert (H : [a; b] ≡ₚ [b; a]) by apply perm_swap.
  split; [exact H|]. exact (export_permutation [a; b] [b; a] H).
Defined.

(** X22 — where the graph sits on the canvas does not matter to the size
    of the export: with every node moved by the same [(dx, dy)] the
    surface keeps its width and height, and the shift of the viewport
    changes by [(-dx, -dy)]. *)
Theorem export_translation (ns : list Node) (dx dy : Z) :
  fullW (moveBy dx dy <$> ns) = fullW ns
  ∧ fullH (moveBy dx dy <$> ns) = fullH ns
  ∧ viewportShift (moveBy dx dy <$> ns)
    = (num_add (viewportShift ns).1 (Num (- dx)),
       num_add (viewportShift ns).2 (Num (- dy))).
Proof.
  unfold fullW, fullH, viewportShift. rewrite nodeBounds_moveBy.
  cbn [shiftBounds minX minY maxX maxY fst snd].
  rewrite !num_sub_shift. split; [reflexivity|]. split; [reflexivity|].
  by rewrite !num_neg_shift.
Qed.

(** X23 — the shift puts the graph into the surface with the padding
    around it: for a non-empty node list the shift and the surface are
    numbers, every node's shifted rectangle lies between 64 and the
    dimension minus 64 on both axes, and some node touches the left
    padding line and some node the top one. *)
Theorem export_fits_surface (ns : list Node) :
  ns ≠ [] →
  ∃ sx sy w h : Z,
    viewportShift ns = (Num sx, Num sy)
    ∧ fullW ns = Num w ∧ fullH ns = Num h
    ∧ Forall (λ n, (64 ≤ x (node_position n) + sx
                    ∧ x (node_position n) + node_w n + sx ≤ w - 64
                    ∧ 64 ≤ y (node_position n) + sy
                    ∧ y (node_position n) + node_h n + sy ≤ h - 64)%Z) ns
    ∧ (∃ n, n ∈ ns ∧ x (node_position n) + sx = 64)
    ∧ (∃ n, n ∈ ns ∧ y (node_position n) + sy = 64).
Proof.
  destruct ns as [|n0 ns0]; [done|]. intros _.
  destruct (nodeBounds_cons_box n0 ns0)
    as (x0 & y0 & x1 & y1 & Hb & Hall & (nx & Hnx & Hx0) & (ny & Hny & Hy0) & _).
  unfold viewportShift, fullW, fullH. rewrite Hb. cbn [box minX minY maxX maxY].
  eexists _, _, _, _. split; [reflexivity|]. split; [reflexivity|].
  split; [reflexivity|]. split.
  - eapply Forall_impl; [exact Hall|]. intros m Hm. cbn beta in *. unfold PAD. lia.
  - split; [exists nx | exists ny]; (split; [assumption|]); unfold PAD; lia.
Qed.

Lemma export_fits_surface_witness :
  let ns := nodes (addNode initialState).1 in
  ns ≠ []
  ∧ ∃ sx sy w h : Z,
      viewportShift ns = (Num sx, Num sy)
      ∧ fullW ns = Num w ∧ fullH ns = Num h
      ∧ Forall (λ n, (64 ≤ x (node_position n) + sx
                      ∧ x (node_position n) + node_w n + sx ≤ w - 64
                      ∧ 64 ≤ y (node_position n) + sy
                      ∧ y (node_position n) + node_h n + sy ≤ h - 64)%Z) ns
      ∧ (∃ n, n ∈ ns ∧ x (node_position n) + sx = 64)
      ∧ (∃ n, n ∈ ns ∧ y (node_position n) + sy = 64).
Proof.
  intros ns.
  assert (H : ns ≠ []) by discriminate.
  split; [exact H|]. exact (export_fits_surface ns H).
Defined.

(** ** The node dialog *)

Lemma saveNode_nodes (ui : DialogState) (sel : Node) :
  selectedNode (editor ui) = Some sel →
  nodes (editor (saveNode ui))
  = (λ n, if bool_decide (node_id n = node_id sel)
          then with_data (formState ui) n else n) <$> nodes (editor ui).
Proof. intros H. unfold saveNode. rewrite H. reflexivity. Qed.

(** X24 — [Save] in the node dialog.  With no node selected nothing
    happens, and the dialog stays open.  With a node selected, every node
    with its id gets the form as its data, and keeps its id, kind,
    position and size; every other node is left as it is; the order is
    kept; edges, rates and counter are untouched; the dialog closes. *)
Theorem saveNode_effect (ui : DialogState) :
  match selectedNode (editor ui) with
  | None => saveNode ui = ui
  | Some sel =>
      isDialogOpen (saveNode ui) = false
      ∧ formState (saveNode ui) = formState ui
      ∧ edges (editor (saveNode ui)) = edges (editor ui)
      ∧ rates (editor (saveNode ui)) = rates (editor ui)
      ∧ idCounter (editor (saveNode ui)) = idCounter (editor ui)
      ∧ Forall2 (λ n n',
           node_id n' = node_id n ∧ node_type n' = node_type n
           ∧ node_position n' = node_position n
           ∧ node_width n' = node_width n ∧ node_height n' = node_height n
           ∧ if decide (node_id n = node_id sel)
             then node_data n' = formState ui
             else n' = n)
          (nodes (editor ui)) (nodes (editor (saveNode ui)))
  end.
Proof.
  destruct (selectedNode (editor ui)) as [sel|] eqn:Hsel.
  - rewrite (saveNode_nodes ui sel Hsel). unfold saveNode. rewrite Hsel.
    repeat (split; [reflexivity|]).
    apply Forall2_fmap_r, Forall_Forall2_diag, Forall_true. intros n.
    unfold compose. cbn beta. case_bool_decide; case_decide; done.
  - unfold saveNode. by rewrite Hsel.
Qed.

(** X25 — opening the dialog on a node and saving without touching the
    form leaves the node list as it was, when the node ids are pairwise
    distinct. *)
Theorem saveNode_untouched_form (ui : DialogState) (n : Node) :
  n ∈ nodes (editor ui) →
  NoDup (node_id <$> nodes (editor ui)) →
  nodes (editor (saveNode (openNodeDialog n ui))) = nodes (editor ui)
  ∧ isDialogOpen (saveNode (openNodeDialog n ui)) = false.
Proof.
  intros Hn Hnd.
  assert (Hin : node_id n ∈ node_id <$> nodes (editor ui)).
  { apply list_elem_of_fmap. by exists n. }
  destruct (find_first_with_id (node_id n) (nodes (editor ui)) Hin)
    as (k & p & Hfind & Hk & Hid & _).
  assert (p = n) as ->.
  { apply list_elem_of_lookup in Hn as [k' Hk'].
    assert (k = k') as ->.
    { apply (NoDup_lookup _ _ _ (node_id n) Hnd);
        rewrite list_lookup_fmap; [by rewrite Hk; cbn; rewrite Hid | by rewrite Hk']. }
    congruence. }
  assert (Hsel : selectedNode (editor (onNodeDoubleClick n ui)) = Some n).
  { exact Hfind. }
  assert (Hopen : openNodeDialog n ui
                  = setFormState (λ _, node_data n) (onNodeDoubleClick n ui)).
  { unfold openNodeDialog, syncFormState. by rewrite Hsel. }
  rewrite Hopen.
  assert (Hsel' : selectedNode (editor (setFormState (λ _, node_data n)
                                          (onNodeDoubleClick n ui))) = Some n).
  { exact Hfind. }
  split.
  - rewrite (saveNode_nodes _ n Hsel'). cbn [formState setFormState editor onNodeDoubleClick
      setDialogOpen onEditor]. cbn [setSelectedNodeId modify fst nodes with_selectedNodeId].
    rewrite <- (list_fmap_id (nodes (editor ui))) at 2.
    apply list_fmap_ext. intros j m Hj. cbn [id].
    case_bool_decide as Hm; [|reflexivity].
    assert (m = n) as ->.
    { apply list_elem_of_lookup in Hn as [k' Hk'].
      assert (j = k') as ->.
      { apply (NoDup_lookup _ _ _ (node_id n) Hnd);
          rewrite list_lookup_fmap; [by rewrite Hj; cbn; rewrite Hm | by rewrite Hk']. }
      congruence. }
    by destruct n.
  - unfold saveNode. by rewrite Hsel'.
Qed.

Lemma saveNode_untouched_form_witness :
  let ui := {| editor := (addNode initialState).1; isDialogOpen := false;
               formState := formState initialDialogState |} in
  let n := createChildNode rootStub "1" 0 in
  n ∈ nodes (editor ui)
  ∧ NoDup (node_id <$> nodes (editor ui))
  ∧ nodes (editor (saveNode (openNodeDialog n ui))) = nodes (editor ui)
  ∧ isDialogOpen (saveNode (openNodeDialog n ui)) = false.
Proof.
  intros ui n.
  assert (Hn : n ∈ nodes (editor ui)) by left.
  assert (Hnd : NoDup (node_id <$> nodes (editor ui))) by decide_closed.
  split; [exact Hn|]. split; [exact Hnd|].
  exact (saveNode_untouched_form ui n Hn Hnd).
Defined.

(** X26 — what was saved is what the dialog shows next time: after [Save]
    with a node selected, a double click on any node with that id fills
    the form with exactly the data that was saved. *)
Theorem saveNode_read_back (ui : DialogState) (sel n' : Node) :
  selectedNode (editor ui) = Some sel →
  n' ∈ nodes (editor (saveNode ui)) →
  node_id n' = node_id sel →
  formState (openNodeDialog n' (saveNode ui)) = formState ui
  ∧ isDialogOpen (openNodeDialog n' (saveNode ui)) = true.
Proof.
  intros Hsel Hn' Hid.
  assert (Hin : node_id n' ∈ node_id <$> nodes (editor (saveNode ui))).
  { apply list_elem_of_fmap. by exists n'. }
  destruct (find_first_with_id (node_id n') _ Hin) as (k & p & Hfind & Hk & Hp & _).
  assert (Hdata : node_data p = formState ui).
  { rewrite (saveNode_nodes ui sel Hsel), list_lookup_fmap in Hk.
    destruct (nodes (editor ui) !! k) as [m|]; [|done].
    cbn in Hk. injection Hk as <-.
    case_bool_decide as Hm; [reflexivity|].
    cbn in Hp. congruence. }
  assert (Hs : selectedNode (editor (onNodeDoubleClick n' (saveNode ui))) = Some p).
  { exact Hfind. }
  unfold openNodeDialog, syncFormState. rewrite Hs. cbn. by rewrite Hdata.
Qed.

Lemma saveNode_read_back_witness :
  let ui := {| editor := with_selectedNodeId (Some "1") (addNode initialState).1;
               isDialogOpen := true;
               formState := with_image (Some "data:image/png;base64,AA==")
                              (formState initialDialogState) |} in
  let sel := createChildNode rootStub "1" 0 in
  let n' := with_data (formState ui) sel in
  selectedNode (editor ui) = Some sel
  ∧ n' ∈ nodes (editor (saveNode ui))
  ∧ node_id n' = node_id sel
  ∧ formState (openNodeDialog n' (saveNode ui)) = formState ui
  ∧ isDialogOpen (openNodeDialog n' (saveNode ui)) = true.
Proof.
  intros ui sel n'.
  assert (Hn' : n' ∈ nodes (editor (saveNode ui))) by left.
  split; [reflexivity|]. split; [exact Hn'|]. split; [reflexivity|].
  exact (saveNode_read_back ui sel n' eq_refl Hn' eq_refl).
Defined.

(** ** Pasted images *)









(** A paste with the dialog closed and node "1" selected: the image is in
    the node and, after the render, in the form. *)
Example paste_into_selected_node :
  let ui := {| editor := with_selectedNodeId (Some "1") (addNode initialState).1;
               isDialogOpen := false;
               formState := formState initialDialogState |} in
  image (formState (imagePasted "data:image/png;base64,AA==" ui)) = None
  ∧ image (formState (imagePastedRendered "data:image/png;base64,AA==" ui))
    = Some "data:image/png;base64,AA=="
  ∧ (image ∘ node_data) <$> nodes (editor (imagePastedRendered "data:image/png;base64,AA==" ui))
    = [Some "data:image/png;base64,AA=="; None].
Proof. repeat split. Qed.

(** ** Tabs *)

Lemma clicks_value (vs : list string) (v0 : string) :
  clicks vs (Some v0) = Some (List.last vs v0).
Proof.
  unfold clicks. induction vs as [|v vs IH] using rev_ind; [reflexivity|].
  rewrite foldl_app, IH, List.last_last. reflexivity.
Qed.

(** X28 — the two tabs of the editor, "graph" and "estimate", starting on
    "graph": after any series of clicks on the two triggers no component
    throws, exactly one of the two panels is active, and it is the one of
    the trigger clicked last (the "graph" panel when there was no click);
    the active panel and the highlighted trigger agree. *)
Theorem tabs_one_active_panel (vs : list string) :
  Forall (λ v, v = "graph" ∨ v = "estimate") vs →
  let ctx := clicks vs (Tabs "graph") in
  ∃ g e : bool,
    isActive ctx "graph" = Some g
    ∧ isActive ctx "estimate" = Some e
    ∧ g = negb e
    ∧ isActive ctx (List.last vs "graph") = Some true.
Proof.
  intros Hvs ctx. subst ctx. unfold Tabs. rewrite clicks_value.
  assert (Hlast : List.last vs "graph" = "graph" ∨ List.last vs "graph" = "estimate").
  { induction Hvs as [|v vs Hv _ IH]; [by left|].
    destruct vs as [|v' vs]; [exact Hv | exact IH]. }
  cbn [isActive]. eexists _, _. split; [reflexivity|]. split; [reflexivity|].
  split; [|by rewrite bool_decide_eq_true_2].
  destruct Hlast as [-> | ->]; reflexivity.
Qed.

Lemma tabs_one_active_panel_witness :
  let vs := ["estimate"; "graph"; "estimate"] in
  let ctx := clicks vs (Tabs "graph") in
  Forall (λ v, v = "graph" ∨ v = "estimate") vs
  ∧ ∃ g e : bool,
      isActive ctx "graph" = Some g
      ∧ isActive ctx "estimate" = Some e
      ∧ g = negb e
      ∧ isActive ctx (List.last vs "graph") = Some true.
Proof.
  intros vs ctx.
  assert (H : Forall (λ v, v = "graph" ∨ v = "estimate") vs).
  { repeat constructor; by (left + right). }
  split; [exact H|]. exact (tabs_one_active_panel vs H).
Defined.
